(** * A shallow embedding of the download-verification core of printables_scraper

    Modelled source:
    - [utils.sanitize_filename]            (src/utils.py, lines 16-21)
    - [utils.wait_for_download_completion] (src/utils.py, lines 43-143)
    - the collision-avoiding temporary path of [utils.download_image]
                                            (src/utils.py, lines 158-176)
    - Step 4 of [main] (move to the final folders, rewrite of the recorded
      paths)                                (src/main.py, lines 218-250)
    - [utils.clean_directory]               (src/utils.py, lines 24-40)
    - [main.save_urls_to_file], [main.load_urls_from_file]
                                            (src/main.py, lines 22-47)
    - the model id and folder names of [main] (src/main.py, lines 163-164,
      192-202)
    - the scroll loop of [scraper.scrape_models] (src/scraper.py,
      lines 99-147)
    - the tags and the recorded download paths of
      [scraper.scrape_model_details]        (src/scraper.py, lines 237-246,
      293-314)

    Python strings are modelled as ASCII [string]s. *)

From Stdlib Require Import Bool Arith ZArith List Lia.
From Stdlib Require Import Strings.String Strings.Ascii Numbers.DecimalString.
Import ListNotations.
Open Scope string_scope.
Open Scope nat_scope.

(* ------------------------------------------------------------------ *)
(** ** Characters and small string helpers *)

Definition sep : ascii := "/"%char.

(** [c in s] on characters. *)
Fixpoint contains_char (c : ascii) (s : string) : bool :=
  match s with
  | EmptyString => false
  | String d s' => Ascii.eqb c d || contains_char c s'
  end.

(** [str.lower()] restricted to ASCII. *)
Definition lower_ascii (c : ascii) : ascii :=
  let n := nat_of_ascii c in
  if (65 <=? n) && (n <=? 90) then ascii_of_nat (n + 32) else c.

Fixpoint lower (s : string) : string :=
  match s with
  | EmptyString => EmptyString
  | String c s' => String (lower_ascii c) (lower s')
  end.

(** [s.endswith(suf)]. *)
Definition endswith (s suf : string) : bool :=
  let n := String.length s in
  let m := String.length suf in
  (m <=? n) && String.eqb (substring (n - m) m s) suf.

(** [s.startswith("/")]. *)
Definition starts_with_sep (s : string) : bool :=
  match s with
  | String c _ => Ascii.eqb c sep
  | EmptyString => false
  end.

(** Whether the last character of [s] is the separator. *)
Fixpoint ends_with_sep (s : string) : bool :=
  match s with
  | EmptyString => false
  | String c EmptyString => Ascii.eqb c sep
  | String _ s' => ends_with_sep s'
  end.

(** [os.path.join(a, b)] (posixpath): an absolute [b] replaces [a]; an
    empty [a] or one ending in a separator is extended directly. *)
Definition join (a b : string) : string :=
  if starts_with_sep b then b
  else if String.eqb a "" then b
  else if ends_with_sep a then a ++ b
  else a ++ String sep b.

(** [os.path.basename(p)] = [p[p.rfind('/') + 1:]]. *)
Fixpoint basename_aux (s acc : string) : string :=
  match s with
  | EmptyString => acc
  | String c s' =>
      if Ascii.eqb c sep then basename_aux s' EmptyString
      else basename_aux s' (acc ++ String c EmptyString)
  end.

Definition basename (p : string) : string := basename_aux p EmptyString.

(** [str(n)] for a natural number. *)
Definition nat_to_string (n : nat) : string :=
  NilEmpty.string_of_uint (Nat.to_uint n).

(* ------------------------------------------------------------------ *)
(** ** [sanitize_filename] *)

Module Sanitize.

(** Python's [\s] / [str.isspace] on ASCII: 0x09-0x0D, 0x1C-0x1F, 0x20. *)
Definition is_space (c : ascii) : bool :=
  let n := nat_of_ascii c in
  ((9 <=? n) && (n <=? 13)) || ((28 <=? n) && (n <=? 32)).

(** Python's [\w] on ASCII: letters, digits and underscore. *)
Definition is_word (c : ascii) : bool :=
  let n := nat_of_ascii c in
  ((48 <=? n) && (n <=? 57)) || ((65 <=? n) && (n <=? 90))
  || ((97 <=? n) && (n <=? 122)) || (n =? 95).

(** Characters kept by [re.sub(r'[^\w\s.-]', '', name)]. *)
Definition kept (c : ascii) : bool :=
  is_word c || is_space c || Ascii.eqb c "." || Ascii.eqb c "-".

Fixpoint filter_chars (p : ascii -> bool) (s : string) : string :=
  match s with
  | EmptyString => EmptyString
  | String c s' => if p c then String c (filter_chars p s') else filter_chars p s'
  end.

Fixpoint lstrip (p : ascii -> bool) (s : string) : string :=
  match s with
  | EmptyString => EmptyString
  | String c s' => if p c then lstrip p s' else s
  end.

Fixpoint rev_str (s : string) : string :=
  match s with
  | EmptyString => EmptyString
  | String c s' => rev_str s' ++ String c EmptyString
  end.

Definition rstrip (p : ascii -> bool) (s : string) : string :=
  rev_str (lstrip p (rev_str s)).

(** [s.strip(chars)]. *)
Definition strip (p : ascii -> bool) (s : string) : string :=
  rstrip p (lstrip p s).

(** [re.sub(r'\s+', '_', s)]: each maximal run of whitespace becomes one
    underscore; [in_run] records that the previous character was
    whitespace. *)
Fixpoint collapse_ws (in_run : bool) (s : string) : string :=
  match s with
  | EmptyString => EmptyString
  | String c s' =>
      if is_space c then
        if in_run then collapse_ws true s' else String "_" (collapse_ws true s')
      else String c (collapse_ws false s')
  end.

Definition is_us_or_dash (c : ascii) : bool := Ascii.eqb c "_" || Ascii.eqb c "-".

Definition sanitize_filename (name : string) : string :=
  let s := strip is_space (filter_chars kept name) in
  let s := collapse_ws false s in
  let s := strip is_us_or_dash s in
  substring 0 100 s.

End Sanitize.

(* ------------------------------------------------------------------ *)
(** ** [wait_for_download_completion] *)

Module Wait.

(** What the polled directory looks like at one instant.  [listing] is
    [None] when [os.path.exists(download_dir)] is false, and otherwise the
    result of [os.listdir] (taken to succeed on an existing directory);
    [mtime f] and [size f] are [os.path.getmtime] / [os.path.getsize] of
    [join download_dir f], [None] when they raise [OSError]. *)
Record dir_state := {
  listing : option (list string);
  mtime : string -> option Z;
  size : string -> option N
}.

(** The directory over the call: [w t] is its state [t] seconds after
    [timeout_start].  The clock advances only through [time.sleep]; every
    read made between two sleeps sees the same state. *)
Definition world := nat -> dir_state.

(** [set(os.listdir(d) if os.path.exists(d) else [])] *)
Definition current_files (d : dir_state) : list string :=
  match listing d with
  | Some l => l
  | None => []
  end.

Definition partial_extensions : list string :=
  [".crdownload"; ".part"; ".tmp"; ".torrent"; ".download"; ".inprogress"].

(** [f.lower().endswith(partial_extensions)] *)
Definition is_partial (f : string) : bool :=
  existsb (endswith (lower f)) partial_extensions.

Definition mem (f : string) (l : list string) : bool :=
  existsb (String.eqb f) l.

(** [new_completed_files]: [current_files - initial_files] with the partial
    downloads filtered out; the set is iterated in listing order. *)
Definition new_completed_files (initial_files cur : list string) : list string :=
  filter (fun f => negb (is_partial f))
    (filter (fun f => negb (mem f initial_files)) cur).

(** [candidate_files_with_mtime]: the names whose [getmtime] succeeds. *)
Fixpoint candidates (d : dir_state) (l : list string) : list (string * Z) :=
  match l with
  | [] => []
  | f :: r =>
      match mtime d f with
      | Some m => (f, m) :: candidates d r
      | None => candidates d r
      end
  end.

(** [sort(key=mtime, reverse=True)[0]]: the stable sort keeps the first of
    the entries with the largest mtime in front. *)
Fixpoint top_candidate (l : list (string * Z)) : option (string * Z) :=
  match l with
  | [] => None
  | (f, m) :: r =>
      match top_candidate r with
      | None => Some (f, m)
      | Some (f', m') => if (m <? m')%Z then Some (f', m') else Some (f, m)
      end
  end.

(** Result of the [for check_attempt in range(25)] loop, with the clock
    when it ends. *)
Inductive stab_result :=
| StabOk (t : nat)
| StabExhausted (t : nat).

(** One attempt reads the size at time [t]; every attempt that does not
    return sleeps one second. *)
Fixpoint stability (w : world) (f : string) (attempts : nat) (t : nat)
    (stable_size_checks : nat) (last_known_size : Z) : stab_result :=
  match attempts with
  | 0 => StabExhausted t
  | S k =>
      match size (w t) f with
      | Some sz =>
          let current_size := Z.of_N sz in
          if (0 <? current_size)%Z && (current_size =? last_known_size)%Z then
            let stable' := S stable_size_checks in
            if 5 <=? stable' then StabOk t
            else stability w f k (t + 1) stable' last_known_size
          else if (0 <=? current_size)%Z then
            stability w f k (t + 1)
              (if (0 <? current_size)%Z then 1 else 0) current_size
          else stability w f k (t + 1) stable_size_checks last_known_size
      | None => stability w f k (t + 1) 0 last_known_size
      end
  end.

Inductive outcome :=
| Done (result : option string) (t : nat)
| OutOfFuel.

(** The [while time.time() - timeout_start < timeout] loop, from clock [t];
    [fuel] bounds the number of iterations (see [wait_loop_total]). *)
Fixpoint wait_loop (w : world) (download_dir : string)
    (initial_files : list string) (timeout : nat) (fuel t : nat) : outcome :=
  match fuel with
  | 0 => OutOfFuel
  | S fuel' =>
      if t <? timeout then
        let d := w t in
        match new_completed_files initial_files (current_files d) with
        | [] => wait_loop w download_dir initial_files timeout fuel' (t + 2)
        | news =>
            match top_candidate (candidates d news) with
            | None => wait_loop w download_dir initial_files timeout fuel' (t + 1)
            | Some (f, _) =>
                match stability w f 25 t 0 (-1)%Z with
                | StabOk t' => Done (Some (join download_dir f)) t'
                | StabExhausted t' => Done None t'
                end
            end
        end
      else Done None t
  end.

(** Each iteration that does not return advances the clock by at least one
    second, so [timeout + 1] iterations are always enough. *)
Definition wait_for_download_completion (w : world) (download_dir : string)
    (initial_files : list string) (timeout : nat) : outcome :=
  wait_loop w download_dir initial_files timeout (S timeout) 0.

End Wait.

(* ------------------------------------------------------------------ *)
(** ** The temporary path chosen by [download_image] *)

Module Allocate.

(** [s.rfind(c)], [-1] when absent. *)
Fixpoint rfind_aux (c : ascii) (s : string) (i : nat) (acc : Z) : Z :=
  match s with
  | EmptyString => acc
  | String d s' => rfind_aux c s' (S i) (if Ascii.eqb c d then Z.of_nat i else acc)
  end.

Definition rfind (c : ascii) (s : string) : Z := rfind_aux c s 0 (-1)%Z.

(** Some character of [p[from:to]] is not a dot. *)
Definition has_non_dot (p : string) (from to : nat) : bool :=
  existsb (fun i => match String.get i p with
                    | Some c => negb (Ascii.eqb c ".")
                    | None => false
                    end) (seq from (to - from)).

(** [os.path.splitext(p)] (posixpath): split at the last dot of the last
    component, unless that component is only leading dots before it. *)
Definition splitext (p : string) : string * string :=
  let sepIndex := rfind sep p in
  let dotIndex := rfind "." p in
  if (sepIndex <? dotIndex)%Z then
    let di := Z.to_nat dotIndex in
    if has_non_dot p (Z.to_nat (sepIndex + 1)) di then
      (substring 0 di p, substring di (String.length p - di) p)
    else (p, "")
  else (p, "").

(** The file system seen by [os.path.exists]: the existing absolute paths
    and the working directory against which relative paths resolve. *)
Record fs := { files : list string; cwd : string }.

Definition path_exists (s : fs) (p : string) : bool :=
  Wait.mem (join (cwd s) p) (files s).

(** [while os.path.exists(initial_file_path):
        initial_file_path = f"{base_temp}_{counter_temp}{ext_temp}"
        counter_temp += 1]
    ([fuel] bounds the number of probes). *)
Fixpoint probe (s : fs) (base_temp ext_temp : string) (fuel counter_temp : nat)
    (initial_file_path : string) : option string :=
  match fuel with
  | 0 => None
  | S fuel' =>
      if path_exists s initial_file_path then
        probe s base_temp ext_temp fuel' (S counter_temp)
          (base_temp ++ "_" ++ nat_to_string counter_temp ++ ext_temp)
      else Some initial_file_path
  end.

(** Lines 167-176 of [download_image] for a given [filename]. *)
Definition initial_file_path (s : fs) (destination_folder filename : string)
    : option string :=
  let temp_filename := Sanitize.sanitize_filename filename in
  let (base_temp, ext_temp) := splitext temp_filename in
  probe s base_temp ext_temp (S (List.length (files s))) 1
    (join destination_folder temp_filename).

End Allocate.

(* ------------------------------------------------------------------ *)
(** ** Step 4 of [main]: move to the final folders, rewrite the record *)

Module Relocate.

(** ["grams"] is a number or the string ["N/A"]. *)
Inductive grams_value :=
| Grams (g : Z)
| GramsNA.

(** The [details] dictionary built by [scrape_model_details]. *)
Record details := {
  title : string;
  description : string;
  images : list string;
  grams : grams_value;
  tags : list string;
  downloaded_filepaths : list string;
  downloaded_image_filepaths : list string;
  url : string
}.

Definition remove_entry (x : string) (l : list string) : list string :=
  filter (fun y => negb (String.eqb y x)) l.

(** [for item_name in os.listdir(src): try: shutil.move(src/item_name, dst)
    except shutil.Error: warn].  [shutil.move] into a directory raises
    [shutil.Error] when [dst/item_name] already exists; otherwise
    [os_error item_name] says whether the move raises another [OSError]
    (e.g. [PermissionError]), which is not caught and escapes ([None]). *)
Fixpoint move_items (os_error : string -> bool) (items src dst : list string)
    : option (list string * list string) :=
  match items with
  | [] => Some (src, dst)
  | item_name :: rest =>
      if Wait.mem item_name dst then move_items os_error rest src dst
      else if os_error item_name then None
      else move_items os_error rest (remove_entry item_name src) (dst ++ [item_name])
  end.

(** [if os.path.exists(src): ...]; [src] is [None] when it does not exist. *)
Definition move_dir (os_error : string -> bool) (src : option (list string))
    (dst : list string) : option (option (list string) * list string) :=
  match src with
  | None => Some (None, dst)
  | Some entries =>
      match move_items os_error entries entries dst with
      | Some (src', dst') => Some (Some src', dst')
      | None => None
      end
  end.

(** The four directories touched by Step 4. *)
Record step4_dirs := {
  temp_image_subdir : option (list string);
  final_image_dir : list string;
  temp_files_subdir : option (list string);
  final_files_dir : list string
}.

(** [[os.path.join(dest, os.path.basename(p)) for p in paths]] *)
Definition rewrite_paths (dest : string) (paths : list string) : list string :=
  map (fun p => join dest (basename p)) paths.

Definition rewrite_record (final_image_destination final_files_destination : string)
    (r : details) : details :=
  {| title := title r;
     description := description r;
     images := images r;
     grams := grams r;
     tags := tags r;
     downloaded_filepaths :=
       rewrite_paths final_files_destination (downloaded_filepaths r);
     downloaded_image_filepaths :=
       rewrite_paths final_image_destination (downloaded_image_filepaths r);
     url := url r |}.

(** Lines 219-250 of [main.py]: move the images, then the files, then
    rewrite both path lists.  [None] when an exception escapes. *)
Definition move_and_rewrite (image_os_error file_os_error : string -> bool)
    (final_image_destination final_files_destination : string)
    (d : step4_dirs) (r : details) : option (step4_dirs * details) :=
  match move_dir image_os_error (temp_image_subdir d) (final_image_dir d) with
  | None => None
  | Some (ti, fi) =>
      match move_dir file_os_error (temp_files_subdir d) (final_files_dir d) with
      | None => None
      | Some (tf, ff) =>
          Some ({| temp_image_subdir := ti; final_image_dir := fi;
                   temp_files_subdir := tf; final_files_dir := ff |},
                rewrite_record final_image_destination final_files_destination r)
      end
  end.

End Relocate.

(* ------------------------------------------------------------------ *)
(** ** [main.save_urls_to_file] and [main.load_urls_from_file] *)

Module Urls.

Definition nl : ascii := "010"%char.
Definition cr : ascii := "013"%char.

(** The text [save_urls_to_file] writes: [url + '\n'] for each URL. *)
Definition save_urls_content (urls : list string) : string :=
  String.concat "" (map (fun u => u ++ String nl EmptyString) urls).

(** Universal-newline reading: ["\r\n"] and ["\r"] are read as ["\n"]. *)
Fixpoint translate_newlines (s : string) : string :=
  match s with
  | EmptyString => EmptyString
  | String c s' =>
      if Ascii.eqb c cr then
        match s' with
        | String d s'' =>
            if Ascii.eqb d nl then String nl (translate_newlines s'')
            else String nl (translate_newlines s')
        | EmptyString => String nl EmptyString
        end
      else String c (translate_newlines s')
  end.

(** Iterating over a text file: the lines, each with its ["\n"] (the last
    one without it when the text does not end in a newline). *)
Fixpoint split_lines_aux (s cur : string) : list string :=
  match s with
  | EmptyString => if String.eqb cur "" then [] else [cur]
  | String c s' =>
      if Ascii.eqb c nl then (cur ++ String nl EmptyString) :: split_lines_aux s' ""
      else split_lines_aux s' (cur ++ String c EmptyString)
  end.

Definition file_lines (content : string) : list string :=
  split_lines_aux (translate_newlines content) "".

(** [[line.strip() for line in f if line.strip()]]; a missing file
    ([None]) gives [[]]. *)
Definition load_urls_from_file (file : option string) : list string :=
  match file with
  | None => []
  | Some content =>
      filter (fun l => negb (String.eqb l ""))
        (map (Sanitize.strip Sanitize.is_space) (file_lines content))
  end.

End Urls.

(* ------------------------------------------------------------------ *)
(** ** Model links: [scraper.scrape_models] and the model id of [main] *)

Module Links.

(** [s.startswith(pre)], giving what follows the prefix. *)
Fixpoint strip_prefix (pre s : string) : option string :=
  match pre with
  | EmptyString => Some s
  | String a pre' =>
      match s with
      | String b s' => if Ascii.eqb a b then strip_prefix pre' s' else None
      | EmptyString => None
      end
  end.

Definition starts_with (pre s : string) : bool :=
  match strip_prefix pre s with Some _ => true | None => false end.

(** [s.split('?')[0]] *)
Fixpoint before_qmark (s : string) : string :=
  match s with
  | EmptyString => EmptyString
  | String c s' => if Ascii.eqb c "?" then EmptyString else String c (before_qmark s')
  end.

Definition site : string := "https://www.printables.com".

(** [if href and href.startswith('/model/'):
        full_link = f"https://www.printables.com{href.split('?')[0]}"] *)
Definition link_of_href (href : option string) : option string :=
  match href with
  | Some h =>
      if negb (String.eqb h "") && starts_with "/model/" h
      then Some (site ++ before_qmark h) else None
  | None => None
  end.

(** [all_model_links.add(full_link)] for each card of one scroll. *)
Fixpoint add_links (hrefs : list (option string)) (links : list string) : list string :=
  match hrefs with
  | [] => links
  | h :: r =>
      match link_of_href h with
      | Some l => add_links r (if Wait.mem l links then links else links ++ [l])
      | None => add_links r links
      end
  end.

(** What one pass of the [while True] loop observes: the card count before
    the scroll, the page height and the cards ([href]s) after it. *)
Record scroll_obs := {
  initial_model_count : nat;
  new_height : nat;
  models_after_scroll : list (option string)
}.

Definition MAX_SCROLL_ATTEMPTS : nat := 20.

(** The infinite-scroll loop over the passes [obs k]; [fuel] bounds the
    number of passes ([None] when it runs out). *)
Fixpoint scroll_loop (obs : nat -> scroll_obs) (limit : nat) (fuel k : nat)
    (last_height scroll_attempts : nat) (links : list string)
    : option (list string) :=
  match fuel with
  | 0 => None
  | S fuel' =>
      let o := obs k in
      let new_model_count := List.length (models_after_scroll o) in
      let stale := (new_height o =? last_height)
                   && (new_model_count <=? initial_model_count o) in
      if stale && (MAX_SCROLL_ATTEMPTS <=? S scroll_attempts) then Some links
      else
        let attempts' := if stale then S scroll_attempts else 0 in
        let links' := add_links (models_after_scroll o) links in
        if (0 <? limit) && (limit <=? List.length links') then Some links'
        else scroll_loop obs limit fuel' (S k) (new_height o) attempts' links'
  end.

(** [scrape_models] from the height read before the loop. *)
Definition scrape_models (obs : nat -> scroll_obs) (limit fuel h0 : nat)
    : option (list string) :=
  scroll_loop obs limit fuel 0 h0 0 [].

Definition is_digit (c : ascii) : bool :=
  let n := nat_of_ascii c in (48 <=? n) && (n <=? 57).

(** Greedy [\d+] from the start of [s]. *)
Fixpoint digit_run (s : string) : string :=
  match s with
  | EmptyString => EmptyString
  | String c s' => if is_digit c then String c (digit_run s') else EmptyString
  end.

(** [re.search(r'/model/(\d+)', s).group(1)] ([None] when no match): the
    first position where ["/model/"] is followed by a digit. *)
Fixpoint search_model_id (s : string) : option string :=
  let here :=
    match strip_prefix "/model/" s with
    | Some rest =>
        match digit_run rest with
        | EmptyString => None
        | d => Some d
        end
    | None => None
    end in
  match here with
  | Some d => Some d
  | None =>
      match s with
      | EmptyString => None
      | String _ s' => search_model_id s'
      end
  end.

(** [model_id] of the [i]-th URL in [main]. *)
Definition model_id (url : string) (i : nat) : string :=
  match search_model_id url with
  | Some d => d
  | None => "unknown_id_" ++ nat_to_string i
  end.



(** The shape of a collected link: the site, ["/model/"], no query. *)
Definition model_link (l : string) : Prop :=
  exists rest, l = site ++ "/model/" ++ rest /\ contains_char "?" rest = false.

(** No whitespace character in [s]. *)
Definition no_space (s : string) : Prop :=
  forall c, contains_char c s = true -> Sanitize.is_space c = false.

End Links.

(* ------------------------------------------------------------------ *)
(** ** Tags and downloaded paths in [scraper.scrape_model_details] *)

Module Details.

(** The breadcrumb loop: stripped, non-empty, not ["3D Models"], new. *)
Fixpoint add_breadcrumbs (texts tags : list string) : list string :=
  match texts with
  | [] => tags
  | x :: r =>
      let tag_text := Sanitize.strip Sanitize.is_space x in
      if negb (String.eqb tag_text "") && negb (Wait.mem tag_text ["3D Models"])
         && negb (Wait.mem tag_text tags)
      then add_breadcrumbs r (tags ++ [tag_text])
      else add_breadcrumbs r tags
  end.

(** The attribute loop: stripped, non-empty, new. *)
Fixpoint add_attributes (texts tags : list string) : list string :=
  match texts with
  | [] => tags
  | x :: r =>
      let tag_text := Sanitize.strip Sanitize.is_space x in
      if negb (String.eqb tag_text "") && negb (Wait.mem tag_text tags)
      then add_attributes r (tags ++ [tag_text])
      else add_attributes r tags
  end.

Definition collect_tags (breadcrumbs attributes : list string) : list string :=
  add_attributes attributes (add_breadcrumbs breadcrumbs []).

(** After a verified download at [p]: [shutil.move(p, files_dir/basename p)]
    and record the new path; on [shutil.Error] ([move_ok = false]) record
    [p] itself. *)
Definition record_download (files_dir : string) (move_ok : bool) (p : string)
    (downloaded_filepaths : list string) : list string :=
  if move_ok then downloaded_filepaths ++ [join files_dir (basename p)]
  else downloaded_filepaths ++ [p].

(** Both tag loops are one loop with a different extra filter. *)
Fixpoint add_filtered (q : string -> bool) (texts tags : list string) : list string :=
  match texts with
  | [] => tags
  | x :: r =>
      let tag_text := Sanitize.strip Sanitize.is_space x in
      if negb (String.eqb tag_text "") && q tag_text && negb (Wait.mem tag_text tags)
      then add_filtered q r (tags ++ [tag_text])
      else add_filtered q r tags
  end.

Definition not_3d (t : string) : bool := negb (Wait.mem t ["3D Models"]).

End Details.

(* ------------------------------------------------------------------ *)
(** ** [utils.clean_directory] *)

Module Clean.

(** What [os.path.isfile] / [os.path.islink] / [os.path.isdir] say of an
    entry; [KOther] is neither (a FIFO, a socket, a device). *)
Inductive entry_kind := KFile | KLink | KDir | KOther.

(** [for item_name in os.listdir(directory_path)]: unlink files and links,
    [rmtree] directories; [fails name] says that the removal raises (the
    exception is caught and printed).  Returns what is left. *)
Fixpoint clean_items (fails : string -> bool) (items : list (string * entry_kind))
    (left : list (string * entry_kind)) : list (string * entry_kind) :=
  match items with
  | [] => left
  | (name, k) :: r =>
      let removed :=
        match k with
        | KFile | KLink | KDir => negb (fails name)
        | KOther => false
        end in
      clean_items fails r
        (if removed then filter (fun e => negb (String.eqb (fst e) name)) left else left)
  end.

(** [None]: the directory does not exist and is created empty. *)
Definition clean_directory (fails : string -> bool)
    (dir : option (list (string * entry_kind))) : list (string * entry_kind) :=
  match dir with
  | None => []
  | Some entries => clean_items fails entries entries
  end.

Definition removable (fails : string -> bool) (e : string * entry_kind) : bool :=
  match snd e with
  | KFile | KLink | KDir => negb (fails (fst e))
  | KOther => false
  end.

Definition removed (fails : string -> bool) (items : list (string * entry_kind))
    (n : string) : bool :=
  existsb (fun it => String.eqb (fst it) n && removable fails it) items.

End Clean.

(* ------------------------------------------------------------------ *)
(** ** Concrete inputs used by the examples below *)

Module Inputs.
Import Wait.

(** One new file [a] whose size is 5 bytes until second 3 and 10 bytes
    from then on. *)
Definition world_growing : world := fun t =>
  {| listing := Some ["a"];
     mtime := fun _ => Some 0%Z;
     size := fun _ => if t <? 3 then Some 5%N else Some 10%N |}.

(** Only an in-progress Chrome download, of constant size. *)
Definition world_partial : world := fun _ =>
  {| listing := Some ["a.CRDOWNLOAD"];
     mtime := fun _ => Some 0%Z;
     size := fun _ => Some 5%N |}.

(** The download directory does not exist. *)
Definition world_missing : world := fun _ =>
  {| listing := None; mtime := fun _ => None; size := fun _ => None |}.

(** One new file [a] that grows by one byte every second. *)
Definition world_unstable : world := fun t =>
  {| listing := Some ["a"];
     mtime := fun _ => Some 0%Z;
     size := fun _ => Some (N.of_nat t) |}.

(** A record as [scrape_model_details] leaves it: both downloaded files
    are recorded under the temporary model folder. *)
Definition sample_details : Relocate.details :=
  {| Relocate.title := "Model";
     Relocate.description := "";
     Relocate.images := [];
     Relocate.grams := Relocate.GramsNA;
     Relocate.tags := ["Tag"];
     Relocate.downloaded_filepaths :=
       ["/out/1_temp_model_folder/files/a"; "/out/1_temp_model_folder/files/b"];
     Relocate.downloaded_image_filepaths := [];
     Relocate.url := "https://www.printables.com/model/1" |}.

(** Temporary files folder with [a] and [b]; the final files folder
    already holds a [b], so [shutil.move] of [b] raises [shutil.Error]. *)
Definition dirs_ab : Relocate.step4_dirs :=
  {| Relocate.temp_image_subdir := Some [];
     Relocate.final_image_dir := [];
     Relocate.temp_files_subdir := Some ["a"; "b"];
     Relocate.final_files_dir := ["b"] |}.

(** Both temporary folders empty. *)
Definition dirs_empty : Relocate.step4_dirs :=
  {| Relocate.temp_image_subdir := Some [];
     Relocate.final_image_dir := [];
     Relocate.temp_files_subdir := Some [];
     Relocate.final_files_dir := [] |}.

Definition no_os_error : string -> bool := fun _ => false.


(** One scroll that loads cards: two for [/model/12-cube], one elsewhere,
    one without [href]. *)
Definition obs_one_page (k : nat) : Links.scroll_obs :=
  {| Links.initial_model_count := 0; Links.new_height := 100;
     Links.models_after_scroll :=
       [Some "/model/12-cube?lang=en"; None; Some "/about"; Some "/model/12-cube"] |}.

(** A static page: 19 scrolls show [/model/1], the 20th shows [/model/2]. *)
Definition obs_static (k : nat) : Links.scroll_obs :=
  {| Links.initial_model_count := 1; Links.new_height := 500;
     Links.models_after_scroll := [Some (if k =? 19 then "/model/2" else "/model/1")] |}.

(** Removing [d] raises. *)
Definition fails_on_d (n : string) : bool := String.eqb n "d".

End Inputs.

(* ================================================================== *)
(** * Properties *)

(** ** Path helpers *)

Lemma str_app_nil_r (s : string) : s ++ EmptyString = s.
Proof. induction s as [|c s IH]; simpl; [reflexivity|now rewrite IH]. Qed.

Lemma str_app_assoc (s1 s2 s3 : string) : s1 ++ (s2 ++ s3) = (s1 ++ s2) ++ s3.
Proof. induction s1 as [|c s1 IH]; simpl; [reflexivity|now rewrite IH]. Qed.

Lemma contains_char_app (c : ascii) (s1 s2 : string) :
  contains_char c (s1 ++ s2) = contains_char c s1 || contains_char c s2.
Proof.
  induction s1 as [|d s1 IH]; simpl; [reflexivity|].
  rewrite IH. apply orb_assoc.
Qed.

Lemma basename_aux_app (s1 s2 acc : string) :
  basename_aux (s1 ++ s2) acc = basename_aux s2 (basename_aux s1 acc).
Proof.
  revert acc. induction s1 as [|c s1 IH]; intro acc; simpl; [reflexivity|].
  destruct (Ascii.eqb c sep); apply IH.
Qed.

Lemma basename_aux_nosep (s acc : string) :
  contains_char sep s = false -> basename_aux s acc = acc ++ s.
Proof.
  revert acc. induction s as [|c s IH]; intros acc H;
    cbn [basename_aux contains_char append] in *.
  - now rewrite str_app_nil_r.
  - apply orb_false_iff in H as [Hc Hs].
    rewrite Ascii.eqb_sym in Hc. rewrite Hc.
    rewrite IH by exact Hs. now rewrite <- str_app_assoc.
Qed.

Lemma basename_aux_ends_sep (s acc : string) :
  ends_with_sep s = true -> basename_aux s acc = EmptyString.
Proof.
  revert acc. induction s as [|c s IH]; intros acc H; [discriminate|].
  destruct s as [|c' s'].
  - cbn [ends_with_sep] in H. cbn [basename_aux]. now rewrite H.
  - change (ends_with_sep (String c' s') = true) in H.
    cbn [basename_aux]. destruct (Ascii.eqb c sep); apply IH, H.
Qed.

Lemma starts_with_sep_nosep (f : string) :
  contains_char sep f = false -> starts_with_sep f = false.
Proof.
  destruct f as [|c f]; simpl; [reflexivity|].
  intro H. apply orb_false_iff in H as [H _]. now rewrite Ascii.eqb_sym.
Qed.

(** [os.path.basename(os.path.join(d, f)) == f] for a name [f] without a
    separator. *)
Lemma basename_join (d f : string) :
  contains_char sep f = false -> basename (join d f) = f.
Proof.
  intro Hf. unfold join, basename.
  rewrite (starts_with_sep_nosep f Hf).
  destruct (String.eqb d "").
  - now apply basename_aux_nosep.
  - destruct (ends_with_sep d) eqn:He.
    + rewrite basename_aux_app, (basename_aux_ends_sep d) by exact He.
      now apply basename_aux_nosep.
    + change (String sep f) with ((String sep EmptyString) ++ f).
      rewrite !basename_aux_app. cbn [basename_aux].
      rewrite Ascii.eqb_refl. now apply basename_aux_nosep.
Qed.

Lemma basename_aux_no_sep (s acc : string) :
  contains_char sep acc = false -> contains_char sep (basename_aux s acc) = false.
Proof.
  revert acc. induction s as [|c s IH]; intros acc H; cbn [basename_aux]; [exact H|].
  destruct (Ascii.eqb c sep) eqn:Hc; apply IH; [reflexivity|].
  rewrite contains_char_app, H. cbn [contains_char orb].
  now rewrite Ascii.eqb_sym, Hc.
Qed.

Lemma basename_no_sep (p : string) : contains_char sep (basename p) = false.
Proof. apply basename_aux_no_sep. reflexivity. Qed.

Lemma basename_idem (p : string) : basename (basename p) = basename p.
Proof.
  unfold basename at 1. rewrite basename_aux_nosep by apply basename_no_sep.
  reflexivity.
Qed.

Lemma basename_join_basename (d p : string) :
  basename (join d (basename p)) = basename p.
Proof. apply basename_join, basename_no_sep. Qed.

(** ** The polling loop *)

Module WaitFacts.
Import Wait.

Lemma new_completed_files_spec (initial_files cur : list string) (f : string) :
  In f (new_completed_files initial_files cur) ->
  In f cur /\ mem f initial_files = false /\ is_partial f = false.
Proof.
  unfold new_completed_files. rewrite !filter_In.
  intros [[Hin Hm] Hp]. apply negb_true_iff in Hm, Hp. auto.
Qed.

Lemma candidates_in (d : dir_state) (l : list string) (f : string) (m : Z) :
  In (f, m) (candidates d l) -> In f l.
Proof.
  induction l as [|g l IH]; simpl; [tauto|].
  destruct (mtime d g); simpl; intro H; [|auto].
  destruct H as [H|H]; [inversion H; auto|auto].
Qed.

Lemma top_candidate_in (l : list (string * Z)) (x : string * Z) :
  top_candidate l = Some x -> In x l.
Proof.
  revert x. induction l as [|[f m] l IH]; intros x H; simpl in H; [discriminate|].
  destruct (top_candidate l) as [[f' m']|] eqn:Ht.
  - destruct (m <? m')%Z; inversion H; subst; simpl; auto.
  - inversion H. simpl. auto.
Qed.

(** The loop always ends once the clock reaches [timeout]: the fuel of
    [wait_for_download_completion] is never the reason it stops. *)
Lemma wait_loop_total (w : world) (dir : string) (init : list string)
    (timeout : nat) : forall fuel t,
  timeout - t < fuel -> wait_loop w dir init timeout fuel t <> OutOfFuel.
Proof.
  induction fuel as [|fuel IH]; intros t Hf; [lia|].
  cbn [wait_loop]. destruct (t <? timeout) eqn:Ht; [|discriminate].
  apply Nat.ltb_lt in Ht.
  destruct (new_completed_files init (current_files (w t))) as [|g gs].
  - apply IH. lia.
  - destruct (top_candidate (candidates (w t) (g :: gs))) as [[f m]|].
    + destruct (stability w f 25 t 0 (-1)); discriminate.
    + apply IH. lia.
Qed.

Lemma wait_for_download_completion_total (w : world) (dir : string)
    (init : list string) (timeout : nat) :
  wait_for_download_completion w dir init timeout <> OutOfFuel.
Proof. apply wait_loop_total. lia. Qed.

(** With no new completed file at any instant, each iteration sleeps two
    seconds until the clock passes [timeout]. *)
Lemma wait_loop_no_news (w : world) (dir : string) (init : list string)
    (timeout : nat) :
  (forall t, new_completed_files init (current_files (w t)) = []) ->
  forall fuel t, timeout - t < fuel -> t < timeout + 2 ->
  exists te, wait_loop w dir init timeout fuel t = Done None te
             /\ timeout <= te < timeout + 2.
Proof.
  intros Hn. induction fuel as [|fuel IH]; intros t Hf Ht2; [lia|].
  cbn [wait_loop]. destruct (t <? timeout) eqn:Ht.
  - apply Nat.ltb_lt in Ht. rewrite Hn. apply IH; lia.
  - apply Nat.ltb_ge in Ht. exists t. split; [reflexivity|lia].
Qed.

Lemma stability_exhausted (w : world) (f : string) : forall k t stable last te,
  stability w f k t stable last = StabExhausted te -> te = t + k.
Proof.
  induction k as [|k IH]; intros t stable last te H; cbn [stability] in H.
  - inversion H. lia.
  - destruct (size (w t) f) as [sz|].
    + destruct ((0 <? Z.of_N sz)%Z && (Z.of_N sz =? last)%Z).
      * destruct (5 <=? S stable); [discriminate|].
        apply IH in H. lia.
      * destruct (0 <=? Z.of_N sz)%Z; apply IH in H; lia.
    + apply IH in H. lia.
Qed.

(** The stability counter never exceeds the number of consecutive one-second
    readings, ending at the previous tick, that all saw [last_known_size];
    so [StabOk te] means the five readings at [te - 4 .. te] saw one
    non-zero size. *)
Lemma stability_ok_readings (w : world) (f : string) :
  forall k t t0 stable last te,
  t0 <= t ->
  (stable = 0 \/
   ((0 < last)%Z /\ t0 + stable <= t /\
    forall j, 1 <= j <= stable -> size (w (t - j)) f = Some (Z.to_N last))) ->
  stability w f k t stable last = StabOk te ->
  t0 + 4 <= te /\
  exists s, (0 < s)%N /\ forall i, i <= 4 -> size (w (te - i)) f = Some s.
Proof.
  induction k as [|k IH]; intros t t0 stable last te H0 Hinv H;
    cbn [stability] in H; [discriminate|].
  destruct (size (w t) f) as [sz|] eqn:Hs.
  - destruct ((0 <? Z.of_N sz)%Z && (Z.of_N sz =? last)%Z) eqn:Hc.
    + apply andb_true_iff in Hc as [Hpos Heq].
      apply Z.ltb_lt in Hpos. apply Z.eqb_eq in Heq. subst last.
      rewrite N2Z.id in Hinv.
      destruct (5 <=? S stable) eqn:H5.
      * inversion H; subst te. apply Nat.leb_le in H5.
        destruct Hinv as [->|[_ [Hle Hj]]]; [lia|].
        split; [lia|]. exists sz. split; [lia|].
        intros i Hi. destruct i as [|i].
        -- now rewrite Nat.sub_0_r.
        -- apply Hj. lia.
      * apply (IH (t + 1) t0 (S stable) (Z.of_N sz)); [lia| |exact H].
        right. rewrite N2Z.id. split; [exact Hpos|].
        split.
        -- destruct Hinv as [->|[_ [Hle _]]]; lia.
        -- intros j Hj. destruct (Nat.eq_dec j 1) as [->|Hj1].
           ++ now replace (t + 1 - 1) with t by lia.
           ++ destruct Hinv as [->|[_ [_ Hj']]]; [lia|].
              replace (t + 1 - j) with (t - (j - 1)) by lia.
              apply Hj'. lia.
    + destruct (0 <=? Z.of_N sz)%Z eqn:Hnn; [|apply Z.leb_gt in Hnn; lia].
      destruct (0 <? Z.of_N sz)%Z eqn:Hpos.
      * apply (IH (t + 1) t0 1 (Z.of_N sz) te); [lia| |exact H].
        right. apply Z.ltb_lt in Hpos. rewrite N2Z.id.
        split; [exact Hpos|]. split; [lia|].
        intros j Hj. replace (t + 1 - j) with t by lia. exact Hs.
      * apply (IH (t + 1) t0 0 (Z.of_N sz) te); [lia|left; reflexivity|exact H].
  - apply (IH (t + 1) t0 0 last); [lia|left; reflexivity|exact H].
Qed.

(** Everything a returned path is known to satisfy. *)
Lemma wait_loop_some (w : world) (dir : string) (init : list string)
    (timeout : nat) : forall fuel t p te,
  wait_loop w dir init timeout fuel t = Done (Some p) te ->
  exists t0 f,
    t <= t0 /\ t0 + 4 <= te /\ p = join dir f /\
    In f (new_completed_files init (current_files (w t0))) /\
    exists s, (0 < s)%N /\ forall i, i <= 4 -> size (w (te - i)) f = Some s.
Proof.
  induction fuel as [|fuel IH]; intros t p te H; cbn [wait_loop] in H;
    [discriminate|].
  destruct (t <? timeout); [|discriminate].
  destruct (new_completed_files init (current_files (w t))) as [|g gs] eqn:Hn.
  - apply IH in H as (t0 & f & Ht & Hrest). exists t0, f. split; [lia|exact Hrest].
  - destruct (top_candidate (candidates (w t) (g :: gs))) as [[f m]|] eqn:Htop.
    + destruct (stability w f 25 t 0 (-1)) as [t'|t'] eqn:Hst; [|discriminate].
      inversion H; subst p te.
      destruct (stability_ok_readings w f 25 t t 0 (-1) t')
        as [Hle Hsz]; [lia|left; reflexivity|exact Hst|].
      exists t, f. split; [lia|]. split; [exact Hle|]. split; [reflexivity|].
      split; [|exact Hsz].
      rewrite Hn. apply top_candidate_in in Htop.
      now apply candidates_in in Htop.
    + apply IH in H as (t0 & f & Ht & Hrest). exists t0, f. split; [lia|exact Hrest].
Qed.

End WaitFacts.

(** ** Claims on [wait_for_download_completion] *)

Import Wait WaitFacts Inputs.

(** C1: if no new file without a partial-download suffix ever appears, the
    call returns [None] (not an exception), after the clock reached
    [timeout] and less than one poll interval (two seconds) past it. *)
Theorem wait_no_candidate_returns_none (w : world) (download_dir : string)
    (initial_files : list string) (timeout : nat) :
  (forall t f, In f (current_files (w t)) -> mem f initial_files = false ->
               is_partial f = true) ->
  exists te,
    wait_for_download_completion w download_dir initial_files timeout = Done None te
    /\ timeout <= te < timeout + 2.
Proof.
  intros Hno. apply wait_loop_no_news; [|lia|lia].
  intro t. destruct (new_completed_files initial_files (current_files (w t)))
    as [|f fs] eqn:Hn; [reflexivity|].
  destruct (new_completed_files_spec initial_files (current_files (w t)) f)
    as (Hin & Hm & Hp); [rewrite Hn; now left|].
  rewrite (Hno t f Hin Hm) in Hp. discriminate.
Qed.

Lemma wait_no_candidate_returns_none_witness :
  exists te, wait_for_download_completion world_partial "/tmp/dl" [] 7 = Done None te
             /\ 7 <= te < 9.
Proof.
  apply (wait_no_candidate_returns_none world_partial "/tmp/dl" [] 7).
  intros t f Hin _. simpl in Hin. destruct Hin as [<-|[]]. reflexivity.
Defined.

(** C9: a missing download directory is polled as an empty listing; the
    call raises nothing and returns [None] once [timeout] has elapsed. *)
Theorem wait_missing_dir_returns_none (w : world) (download_dir : string)
    (initial_files : list string) (timeout : nat) :
  (forall t, listing (w t) = None) ->
  exists te,
    wait_for_download_completion w download_dir initial_files timeout = Done None te
    /\ timeout <= te < timeout + 2.
Proof.
  intros Hmiss. apply wait_loop_no_news; [|lia|lia].
  intro t. unfold current_files. now rewrite Hmiss.
Qed.

Lemma wait_missing_dir_returns_none_witness :
  exists te, wait_for_download_completion world_missing "/tmp/dl" ["x"] 5 = Done None te
             /\ 5 <= te < 7.
Proof.
  apply (wait_missing_dir_returns_none world_missing "/tmp/dl" ["x"] 5).
  intro t. reflexivity.
Defined.

(** C3: the returned path never has a file name ending (case-insensitively)
    in a partial-download suffix.  Names listed by [os.listdir] contain no
    separator. *)
Theorem wait_never_returns_partial (w : world) (download_dir : string)
    (initial_files : list string) (timeout : nat) (p : string) (te : nat) :
  (forall t f, In f (current_files (w t)) -> contains_char sep f = false) ->
  wait_for_download_completion w download_dir initial_files timeout = Done (Some p) te ->
  is_partial (basename p) = false.
Proof.
  intros Hnames H. apply wait_loop_some in H as (t0 & f & _ & _ & -> & Hin & _).
  apply new_completed_files_spec in Hin as (Hcur & _ & Hp).
  rewrite basename_join by exact (Hnames t0 f Hcur). exact Hp.
Qed.

Lemma wait_never_returns_partial_witness :
  is_partial (basename "/tmp/dl/a") = false.
Proof.
  apply (wait_never_returns_partial world_growing "/tmp/dl" [] 180 "/tmp/dl/a" 7).
  - intros t f Hin. simpl in Hin. destruct Hin as [<-|[]]. reflexivity.
  - vm_compute. reflexivity.
Defined.

(** C10: a returned path is [os.path.join(download_dir, f)] for a name [f]
    listed during the call and absent from [initial_files]. *)
Theorem wait_result_is_new_listed_file (w : world) (download_dir : string)
    (initial_files : list string) (timeout : nat) (p : string) (te : nat) :
  wait_for_download_completion w download_dir initial_files timeout = Done (Some p) te ->
  exists t f, t <= te /\ p = join download_dir f /\
              In f (current_files (w t)) /\ mem f initial_files = false.
Proof.
  intro H. apply wait_loop_some in H as (t0 & f & _ & Hte & Hp & Hin & _).
  apply new_completed_files_spec in Hin as (Hcur & Hm & _).
  exists t0, f. repeat split; auto. lia.
Qed.

Lemma wait_result_is_new_listed_file_witness :
  exists t f, t <= 7 /\ "/tmp/dl/a" = join "/tmp/dl" f /\
              In f (current_files (world_growing t)) /\ mem f [] = false.
Proof.
  apply (wait_result_is_new_listed_file world_growing "/tmp/dl" [] 180).
  vm_compute. reflexivity.
Defined.

(** C2 (as it stands): the single new file of [world_growing] changes size
    at second 3, and its path is returned at second 7, four seconds later. *)
Lemma wait_returns_four_seconds_after_change :
  wait_for_download_completion world_growing "/tmp/dl" [] 180
    = Done (Some "/tmp/dl/a") 7 /\
  size (world_growing 2) "a" <> size (world_growing 3) "a" /\
  7 < 3 + 5.
Proof.
  split; [vm_compute; reflexivity|]. split; [|lia].
  vm_compute. discriminate.
Qed.

(** C2 (amended): when exactly one new non-partial file [f0] appears, a
    returned path is [f0]'s, and the five one-second readings at
    [te - 4 .. te] all saw the same non-zero size: the path is returned no
    earlier than four seconds after the reading at which the size last
    changed. *)
Theorem wait_returns_after_five_equal_readings (w : world) (download_dir : string)
    (initial_files : list string) (timeout : nat) (f0 p : string) (te : nat) :
  (forall t f, In f (current_files (w t)) -> mem f initial_files = false ->
               is_partial f = false -> f = f0) ->
  wait_for_download_completion w download_dir initial_files timeout = Done (Some p) te ->
  p = join download_dir f0 /\ 4 <= te /\
  exists s, (0 < s)%N /\ forall i, i <= 4 -> size (w (te - i)) f0 = Some s.
Proof.
  intros Huniq H. apply wait_loop_some in H as (t0 & f & _ & Hte & -> & Hin & Hsz).
  apply new_completed_files_spec in Hin as (Hcur & Hm & Hp).
  rewrite <- (Huniq t0 f Hcur Hm Hp).
  split; [reflexivity|]. split; [lia|exact Hsz].
Qed.

Lemma wait_returns_after_five_equal_readings_witness :
  "/tmp/dl/a" = join "/tmp/dl" "a" /\ 4 <= 7 /\
  exists s, (0 < s)%N /\ forall i, i <= 4 -> size (world_growing (7 - i)) "a" = Some s.
Proof.
  apply (wait_returns_after_five_equal_readings world_growing "/tmp/dl" [] 180 "a").
  - intros t f Hin _ _. simpl in Hin. destruct Hin as [<-|[]]. reflexivity.
  - vm_compute. reflexivity.
Defined.

(** C7: once a candidate is chosen, a stability check that exhausts its 25
    one-second attempts ends the whole invocation with [None] at [t + 25];
    the loop does not scan again. *)
Theorem wait_stability_exhausted_is_final (w : world) (download_dir : string)
    (initial_files : list string) (timeout fuel t : nat) (f : string) (m : Z) :
  t < timeout ->
  top_candidate (candidates (w t)
    (new_completed_files initial_files (current_files (w t)))) = Some (f, m) ->
  (forall te, stability w f 25 t 0 (-1) <> StabOk te) ->
  wait_loop w download_dir initial_files timeout (S fuel) t = Done None (t + 25).
Proof.
  intros Ht Htop Hstab. cbn [wait_loop].
  apply Nat.ltb_lt in Ht. rewrite Ht.
  destruct (new_completed_files initial_files (current_files (w t))) as [|g gs];
    [discriminate|].
  rewrite Htop.
  destruct (stability w f 25 t 0 (-1)) as [t'|t'] eqn:Hst.
  - exfalso. exact (Hstab t' eq_refl).
  - apply stability_exhausted in Hst. now subst t'.
Qed.

Lemma wait_stability_exhausted_is_final_witness :
  wait_loop world_unstable "/tmp/dl" [] 7 1 0 = Done None 25.
Proof.
  apply (wait_stability_exhausted_is_final world_unstable "/tmp/dl" [] 7 0 0 "a" 0%Z).
  - lia.
  - reflexivity.
  - intros te Hte. vm_compute in Hte. discriminate Hte.
Defined.

(** ** [sanitize_filename] *)

Module SanitizeFacts.
Import Sanitize.

Lemma filter_chars_drops (p : ascii -> bool) (c : ascii) (s : string) :
  p c = false -> contains_char c (filter_chars p s) = false.
Proof.
  intro Hc. induction s as [|d s IH]; cbn [filter_chars]; [reflexivity|].
  destruct (p d) eqn:Hd; [|exact IH].
  cbn [contains_char]. rewrite IH, orb_false_r.
  destruct (Ascii.eqb c d) eqn:E; [|reflexivity].
  apply Ascii.eqb_eq in E. subst d. congruence.
Qed.

Lemma lstrip_keeps_absent (p : ascii -> bool) (c : ascii) (s : string) :
  contains_char c s = false -> contains_char c (lstrip p s) = false.
Proof.
  induction s as [|d s IH]; intro H; cbn [lstrip]; [exact H|].
  destruct (p d); [|exact H].
  apply IH. cbn [contains_char] in H. now apply orb_false_iff in H as [_ H].
Qed.

Lemma rev_str_contains (c : ascii) (s : string) :
  contains_char c (rev_str s) = contains_char c s.
Proof.
  induction s as [|d s IH]; cbn [rev_str contains_char]; [reflexivity|].
  rewrite contains_char_app, IH. cbn [contains_char].
  now rewrite orb_false_r, orb_comm.
Qed.

Lemma strip_keeps_absent (p : ascii -> bool) (c : ascii) (s : string) :
  contains_char c s = false -> contains_char c (strip p s) = false.
Proof.
  intro H. unfold strip, rstrip.
  rewrite rev_str_contains. apply lstrip_keeps_absent.
  rewrite rev_str_contains. now apply lstrip_keeps_absent.
Qed.

Lemma collapse_ws_keeps_absent (c : ascii) (s : string) (in_run : bool) :
  c <> "_"%char -> contains_char c s = false ->
  contains_char c (collapse_ws in_run s) = false.
Proof.
  intros Hc. revert in_run. induction s as [|d s IH]; intros in_run H;
    cbn [collapse_ws]; [reflexivity|].
  cbn [contains_char] in H. apply orb_false_iff in H as [Hd Hs].
  destruct (is_space d); [destruct in_run|].
  - now apply IH.
  - cbn [contains_char]. rewrite IH by exact Hs. rewrite orb_false_r.
    destruct (Ascii.eqb c "_") eqn:E; [|reflexivity].
    apply Ascii.eqb_eq in E. contradiction.
  - cbn [contains_char]. rewrite IH by exact Hs. now rewrite orb_false_r.
Qed.

Lemma substring_keeps_absent (c : ascii) (s : string) :
  forall n m, contains_char c s = false -> contains_char c (substring n m s) = false.
Proof.
  induction s as [|d s IH]; intros n m H.
  - destruct n, m; reflexivity.
  - cbn [contains_char] in H. apply orb_false_iff in H as [Hd Hs].
    destruct n as [|n]; [destruct m as [|m]|]; cbn [substring].
    + reflexivity.
    + cbn [contains_char]. now rewrite Hd, IH.
    + now apply IH.
Qed.

(** Any character removed by the first filter and other than the
    underscore introduced for whitespace never reaches the output. *)
Lemma sanitize_filename_drops (c : ascii) (name : string) :
  kept c = false -> c <> "_"%char ->
  contains_char c (sanitize_filename name) = false.
Proof.
  intros Hk Hu. unfold sanitize_filename.
  apply substring_keeps_absent, strip_keeps_absent, collapse_ws_keeps_absent;
    [exact Hu|].
  apply strip_keeps_absent, filter_chars_drops, Hk.
Qed.

End SanitizeFacts.

Import Sanitize SanitizeFacts.

(** C6 (as it stands): [".."] is not rejected, it is returned unchanged. *)
Lemma sanitize_filename_keeps_dotdot : sanitize_filename ".." = "..".
Proof. reflexivity. Qed.

(** C6 (amended): the output of [sanitize_filename] never contains a path
    separator, neither ["/"] nor the Windows ["\"]; it may still be the
    segment [".."]. *)
Theorem sanitize_filename_no_separator (name : string) :
  contains_char "/" (sanitize_filename name) = false /\
  contains_char "\" (sanitize_filename name) = false /\
  sanitize_filename ".." = "..".
Proof.
  split; [|split].
  - apply sanitize_filename_drops; [reflexivity|discriminate].
  - apply sanitize_filename_drops; [reflexivity|discriminate].
  - reflexivity.
Qed.

(** ** The temporary path of [download_image] *)

Module AllocateFacts.
Import Allocate.

(** C5: with [photo.jpg] and [photo_1.jpg] in [/data/imgs] and the process
    running in [/home/user], the probe after the first one drops the
    destination folder: the path chosen is the bare relative
    ["photo_1.jpg"], whose name is taken in [/data/imgs], instead of
    [/data/imgs/photo_2.jpg]. *)
Theorem download_image_probe_drops_directory :
  let s := {| files := ["/data/imgs/photo.jpg"; "/data/imgs/photo_1.jpg"];
              cwd := "/home/user" |} in
  initial_file_path s "/data/imgs" "photo.jpg" = Some "photo_1.jpg" /\
  "photo_1.jpg" <> join "/data/imgs" "photo_2.jpg" /\
  Wait.mem (join "/data/imgs" "photo_1.jpg") (files s) = true /\
  join (cwd s) "photo_1.jpg" = "/home/user/photo_1.jpg".
Proof.
  simpl. split; [vm_compute; reflexivity|].
  split; [vm_compute; discriminate|]. split; reflexivity.
Qed.

End AllocateFacts.

(** ** Step 4 of [main] *)

Module RelocateFacts.
Import Relocate.

Lemma rewrite_paths_idem (dest : string) (l : list string) :
  rewrite_paths dest (rewrite_paths dest l) = rewrite_paths dest l.
Proof.
  unfold rewrite_paths. rewrite map_map. apply map_ext.
  intro p. now rewrite basename_join_basename.
Qed.

Lemma rewrite_record_idem (di df : string) (r : details) :
  rewrite_record di df (rewrite_record di df r) = rewrite_record di df r.
Proof.
  unfold rewrite_record at 1 3. cbn [downloaded_filepaths downloaded_image_filepaths
    title description images grams tags url rewrite_record].
  now rewrite !rewrite_paths_idem.
Qed.

(** Whatever the moves did, the record leaves Step 4 rewritten. *)
Lemma move_and_rewrite_record (ie fe : string -> bool) (di df : string)
    (d d' : step4_dirs) (r r' : details) :
  move_and_rewrite ie fe di df d r = Some (d', r') -> r' = rewrite_record di df r.
Proof.
  unfold move_and_rewrite.
  destruct (move_dir ie (temp_image_subdir d) (final_image_dir d)) as [[ti fi]|];
    [|discriminate].
  destruct (move_dir fe (temp_files_subdir d) (final_files_dir d)) as [[tf ff]|];
    [|discriminate].
  intro H. now inversion H.
Qed.

End RelocateFacts.

Import Relocate RelocateFacts.

(** C4 (as it stands): with [b] failing to move, the record still lists
    [b]'s final path next to [a]'s. *)
Lemma relocate_lists_unmoved_file :
  exists d',
    move_and_rewrite no_os_error no_os_error "/out/Tag/1_Model/images"
      "/out/Tag/1_Model/files" dirs_ab sample_details
    = Some (d', rewrite_record "/out/Tag/1_Model/images" "/out/Tag/1_Model/files"
                  sample_details) /\
    temp_files_subdir d' = Some ["b"] /\
    final_files_dir d' = ["b"; "a"] /\
    downloaded_filepaths (rewrite_record "/out/Tag/1_Model/images"
      "/out/Tag/1_Model/files" sample_details)
    = ["/out/Tag/1_Model/files/a"; "/out/Tag/1_Model/files/b"].
Proof.
  eexists. split; [reflexivity|]. repeat split; reflexivity.
Qed.

(** C4 (amended): when the move of [b] fails with [shutil.Error] (the
    destination already has a [b]) and the move of [a] succeeds, Step 4
    goes on: [a] ends in the destination, [b] stays in the source, and
    the record's path lists are every recorded path rewritten to
    destination/basename, whichever moves succeeded. *)
Theorem relocate_partial_failure (ie fe : string -> bool) (di df : string)
    (d : step4_dirs) (r : details) (a b : string)
    (ti : option (list string)) (fi : list string) :
  a <> b ->
  temp_files_subdir d = Some [a; b] ->
  Wait.mem a (final_files_dir d) = false -> fe a = false ->
  Wait.mem b (final_files_dir d) = true ->
  move_dir ie (temp_image_subdir d) (final_image_dir d) = Some (ti, fi) ->
  exists d',
    move_and_rewrite ie fe di df d r = Some (d', rewrite_record di df r) /\
    temp_files_subdir d' = Some [b] /\
    final_files_dir d' = (final_files_dir d ++ [a])%list /\
    downloaded_filepaths (rewrite_record di df r)
      = rewrite_paths df (downloaded_filepaths r) /\
    downloaded_image_filepaths (rewrite_record di df r)
      = rewrite_paths di (downloaded_image_filepaths r).
Proof.
  intros Hab Hsrc Ha Hfa Hb Himg.
  unfold move_and_rewrite. rewrite Himg, Hsrc. cbn [move_dir move_items].
  rewrite Ha, Hfa.
  assert (Hb' : Wait.mem b (final_files_dir d ++ [a])%list = true).
  { unfold Wait.mem in *. rewrite existsb_app, Hb. reflexivity. }
  rewrite Hb'.
  assert (Hrem : remove_entry a [a; b] = [b]).
  { unfold remove_entry. cbn [filter]. rewrite String.eqb_refl.
    destruct (String.eqb b a) eqn:E; [apply String.eqb_eq in E; congruence|].
    reflexivity. }
  rewrite Hrem. eexists. repeat split.
Qed.

Lemma relocate_partial_failure_witness :
  exists d',
    move_and_rewrite no_os_error no_os_error "/out/Tag/1_Model/images"
      "/out/Tag/1_Model/files" dirs_ab sample_details
    = Some (d', rewrite_record "/out/Tag/1_Model/images" "/out/Tag/1_Model/files"
                  sample_details) /\
    temp_files_subdir d' = Some ["b"] /\
    final_files_dir d' = (final_files_dir dirs_ab ++ ["a"])%list /\
    downloaded_filepaths (rewrite_record "/out/Tag/1_Model/images"
      "/out/Tag/1_Model/files" sample_details)
      = rewrite_paths "/out/Tag/1_Model/files" (downloaded_filepaths sample_details) /\
    downloaded_image_filepaths (rewrite_record "/out/Tag/1_Model/images"
      "/out/Tag/1_Model/files" sample_details)
      = rewrite_paths "/out/Tag/1_Model/images"
          (downloaded_image_filepaths sample_details).
Proof.
  apply (relocate_partial_failure no_os_error no_os_error _ _ dirs_ab sample_details
           "a" "b" (Some []) []).
  - discriminate.
  - reflexivity.
  - reflexivity.
  - reflexivity.
  - reflexivity.
  - reflexivity.
Defined.

(** C8 (as it stands): with both temporary folders empty, the record still
    comes back changed, its paths rewritten to the final folders. *)
Lemma relocate_empty_source_rewrites_record :
  move_and_rewrite no_os_error no_os_error "/out/Tag/1_Model/images"
    "/out/Tag/1_Model/files" dirs_empty sample_details
  = Some (dirs_empty, rewrite_record "/out/Tag/1_Model/images"
                        "/out/Tag/1_Model/files" sample_details) /\
  rewrite_record "/out/Tag/1_Model/images" "/out/Tag/1_Model/files" sample_details
    <> sample_details.
Proof.
  split; [reflexivity|].
  intro H. apply (f_equal downloaded_filepaths) in H. vm_compute in H. discriminate H.
Qed.

(** C8 (amended): with empty temporary folders nothing moves and the
    directories are unchanged, while the record's path lists are rewritten
    to destination/basename; on a record that such a rewrite produced
    (e.g. one already relocated to the same destinations) the step returns
    the record unchanged. *)
Theorem relocate_empty_source (ie fe : string -> bool) (di df : string)
    (d : step4_dirs) (r : details) :
  temp_image_subdir d = Some [] -> temp_files_subdir d = Some [] ->
  move_and_rewrite ie fe di df d r = Some (d, rewrite_record di df r) /\
  move_and_rewrite ie fe di df d (rewrite_record di df r)
    = Some (d, rewrite_record di df r).
Proof.
  intros Hi Hf. destruct d as [ti fi tf ff]. cbn in Hi, Hf. subst ti tf.
  unfold move_and_rewrite. cbn [temp_image_subdir final_image_dir
    temp_files_subdir final_files_dir move_dir move_items].
  split; [reflexivity|]. now rewrite rewrite_record_idem.
Qed.

Lemma relocate_empty_source_witness :
  move_and_rewrite no_os_error no_os_error "/out/Tag/1_Model/images"
    "/out/Tag/1_Model/files" dirs_empty sample_details
  = Some (dirs_empty, rewrite_record "/out/Tag/1_Model/images"
                        "/out/Tag/1_Model/files" sample_details) /\
  move_and_rewrite no_os_error no_os_error "/out/Tag/1_Model/images"
    "/out/Tag/1_Model/files" dirs_empty
    (rewrite_record "/out/Tag/1_Model/images" "/out/Tag/1_Model/files" sample_details)
  = Some (dirs_empty, rewrite_record "/out/Tag/1_Model/images"
                        "/out/Tag/1_Model/files" sample_details).
Proof.
  apply relocate_empty_source; reflexivity.
Defined.

(* ================================================================== *)
(** * Further properties of the code *)

(** ** [str.strip] *)

Module StripFacts.
Import Sanitize.

Lemma rev_str_app (x y : string) : rev_str (x ++ y) = rev_str y ++ rev_str x.
Proof.
  induction x as [|c x IH]; cbn [rev_str append].
  - now rewrite str_app_nil_r.
  - rewrite IH. now rewrite str_app_assoc.
Qed.

Lemma rev_str_involutive (x : string) : rev_str (rev_str x) = x.
Proof.
  induction x as [|c x IH]; cbn [rev_str]; [reflexivity|].
  rewrite rev_str_app. cbn [rev_str append]. now rewrite IH.
Qed.

Lemma lstrip_app_nonempty (p : ascii -> bool) (x y : string) :
  lstrip p x <> EmptyString -> lstrip p (x ++ y) = lstrip p x ++ y.
Proof.
  induction x as [|c x IH]; cbn [lstrip append]; [congruence|].
  destruct (p c); [exact IH|reflexivity].
Qed.

Lemma lstrip_app_empty (p : ascii -> bool) (x y : string) :
  lstrip p x = EmptyString -> lstrip p (x ++ y) = lstrip p y.
Proof.
  induction x as [|c x IH]; cbn [lstrip append]; [reflexivity|].
  destruct (p c); [exact IH|discriminate].
Qed.

Lemma lstrip_head (p : ascii -> bool) (s : string) :
  lstrip p s = EmptyString \/
  exists c s', lstrip p s = String c s' /\ p c = false.
Proof.
  induction s as [|c s IH]; cbn [lstrip]; [now left|].
  destruct (p c) eqn:Hc; [exact IH|right; eauto].
Qed.

Lemma lstrip_idem (p : ascii -> bool) (s : string) :
  lstrip p (lstrip p s) = lstrip p s.
Proof.
  destruct (lstrip_head p s) as [->|(c & s' & -> & Hc)]; [reflexivity|].
  cbn [lstrip]. now rewrite Hc.
Qed.

Lemma rstrip_cons (p : ascii -> bool) (c : ascii) (s : string) :
  p c = false -> rstrip p (String c s) = String c (rstrip p s).
Proof.
  intro Hc. unfold rstrip. cbn [rev_str].
  destruct (lstrip_head p (rev_str s)) as [He|(d & s' & He & _)].
  - rewrite lstrip_app_empty by exact He. cbn [lstrip]. rewrite Hc, He. reflexivity.
  - rewrite lstrip_app_nonempty by congruence.
    rewrite rev_str_app. reflexivity.
Qed.

Lemma rstrip_idem (p : ascii -> bool) (s : string) :
  rstrip p (rstrip p s) = rstrip p s.
Proof. unfold rstrip. now rewrite rev_str_involutive, lstrip_idem. Qed.

(** [s.strip().strip() == s.strip()] *)
Lemma strip_idem (p : ascii -> bool) (s : string) :
  strip p (strip p s) = strip p s.
Proof.
  unfold strip at 2 3.
  destruct (lstrip_head p s) as [->|(c & s' & -> & Hc)]; [reflexivity|].
  rewrite rstrip_cons by exact Hc. unfold strip. cbn [lstrip]. rewrite Hc.
  rewrite <- rstrip_cons by exact Hc. apply rstrip_idem.
Qed.

(** A stripped string is empty or starts with a kept character. *)
Lemma strip_head (p : ascii -> bool) (s : string) :
  strip p s = EmptyString \/
  exists c s', strip p s = String c s' /\ p c = false.
Proof.
  unfold strip.
  destruct (lstrip_head p s) as [->|(c & s' & -> & Hc)]; [now left|].
  right. rewrite rstrip_cons by exact Hc. eauto.
Qed.

(** A trailing stripped character does not change the result. *)
Lemma strip_snoc (p : ascii -> bool) (x : string) (c : ascii) :
  p c = true -> strip p (x ++ String c EmptyString) = strip p x.
Proof.
  intro Hc. unfold strip.
  destruct (lstrip_head p x) as [He|(d & s' & He & _)].
  - rewrite lstrip_app_empty by exact He. cbn [lstrip]. now rewrite Hc, He.
  - rewrite lstrip_app_nonempty by congruence. unfold rstrip.
    rewrite rev_str_app. cbn [rev_str append lstrip]. now rewrite Hc.
Qed.

Lemma length_substring (n m : nat) (s : string) :
  String.length (substring n m s) <= m.
Proof.
  revert n m. induction s as [|c s IH]; intros n m.
  - destruct n, m; cbn; lia.
  - destruct n as [|n]; [destruct m as [|m]|]; cbn [substring String.length].
    + lia.
    + specialize (IH 0 m). lia.
    + apply IH.
Qed.

Lemma collapse_ws_no_space (c : ascii) (s : string) (in_run : bool) :
  is_space c = true -> contains_char c (collapse_ws in_run s) = false.
Proof.
  intros Hc. revert in_run. induction s as [|d s IH]; intro in_run;
    cbn [collapse_ws]; [reflexivity|].
  destruct (is_space d) eqn:Hd; [destruct in_run|].
  - apply IH.
  - cbn [contains_char]. rewrite IH, orb_false_r.
    destruct (Ascii.eqb c "_") eqn:E; [|reflexivity].
    apply Ascii.eqb_eq in E. subst c. discriminate.
  - cbn [contains_char]. rewrite IH, orb_false_r.
    destruct (Ascii.eqb c d) eqn:E; [|reflexivity].
    apply Ascii.eqb_eq in E. subst d. congruence.
Qed.

End StripFacts.

Import StripFacts.

(** [sanitize_filename] never returns more than 100 characters. *)
Theorem sanitize_filename_length (name : string) :
  String.length (sanitize_filename name) <= 100.
Proof. apply length_substring. Qed.

(** Every character [sanitize_filename] returns is a letter, a digit, an
    underscore, a dot or a dash: no whitespace survives. *)
Theorem sanitize_filename_charset (name : string) (c : ascii) :
  contains_char c (sanitize_filename name) = true ->
  (is_word c || Ascii.eqb c "." || Ascii.eqb c "-") = true.
Proof.
  intro H. destruct (kept c) eqn:Hk.
  - unfold kept in Hk. destruct (is_space c) eqn:Hs.
    + exfalso. revert H. apply Bool.not_true_iff_false. unfold sanitize_filename.
      apply substring_keeps_absent, strip_keeps_absent, collapse_ws_no_space, Hs.
    + rewrite orb_false_r in Hk. destruct (is_word c); [reflexivity|].
      exact Hk.
  - exfalso. assert (Hu : c <> "_"%char) by (intros ->; discriminate).
    rewrite (sanitize_filename_drops c name Hk Hu) in H. discriminate.
Qed.

Lemma sanitize_filename_charset_witness :
  (is_word "M" || Ascii.eqb "M" "." || Ascii.eqb "M" "-") = true.
Proof.
  apply (sanitize_filename_charset "My: Cool/Model?? v2" "M"). reflexivity.
Defined.

(** A non-empty result of [sanitize_filename] never starts with [_] or
    [-]. *)
Theorem sanitize_filename_head (name : string) (c : ascii) (s : string) :
  sanitize_filename name = String c s -> is_us_or_dash c = false.
Proof.
  unfold sanitize_filename.
  destruct (strip_head is_us_or_dash
              (collapse_ws false (strip is_space (filter_chars kept name))))
    as [->|(d & s' & -> & Hd)]; [discriminate|].
  cbn [substring]. intro H. now inversion H; subst.
Qed.

Lemma sanitize_filename_head_witness : is_us_or_dash "a" = false.
Proof.
  apply (sanitize_filename_head " __a  b--  " "a" "_b"). reflexivity.
Defined.

(** ** The URL list file *)

Module UrlFacts.
Import Urls.

Lemma concat_empty_cons (x : string) (xs : list string) :
  String.concat "" (x :: xs) = x ++ String.concat "" xs.
Proof.
  destruct xs as [|y ys]; cbn [String.concat]; [now rewrite str_app_nil_r|].
  reflexivity.
Qed.

Lemma translate_no_cr (u rest : string) :
  contains_char cr u = false ->
  translate_newlines (u ++ rest) = u ++ translate_newlines rest.
Proof.
  induction u as [|c u IH]; intro H; [reflexivity|].
  cbn [contains_char] in H. apply orb_false_iff in H as [Hc Hu].
  cbn [append translate_newlines]. rewrite Ascii.eqb_sym, Hc. now rewrite IH.
Qed.

Lemma translate_nl (rest : string) :
  translate_newlines (String nl rest) = String nl (translate_newlines rest).
Proof. reflexivity. Qed.

Lemma split_lines_no_nl (u rest cur : string) :
  contains_char nl u = false ->
  split_lines_aux (u ++ String nl rest) cur
  = (cur ++ u ++ String nl EmptyString) :: split_lines_aux rest EmptyString.
Proof.
  revert cur. induction u as [|c u IH]; intros cur H.
  - cbn [append split_lines_aux]. rewrite Ascii.eqb_refl. reflexivity.
  - cbn [contains_char] in H. apply orb_false_iff in H as [Hc Hu].
    cbn [append split_lines_aux]. rewrite Ascii.eqb_sym, Hc.
    rewrite IH by exact Hu. now rewrite <- str_app_assoc.
Qed.

Lemma file_lines_save (urls : list string) :
  (forall u, In u urls -> contains_char nl u = false /\ contains_char cr u = false) ->
  file_lines (save_urls_content urls)
  = map (fun u => u ++ String nl EmptyString) urls.
Proof.
  unfold file_lines, save_urls_content.
  induction urls as [|u us IH]; intro H; [reflexivity|].
  destruct (H u (or_introl eq_refl)) as [Hnl Hcr].
  cbn [map]. rewrite concat_empty_cons, <- str_app_assoc, translate_no_cr by exact Hcr.
  cbn [append]. rewrite translate_nl, split_lines_no_nl by exact Hnl.
  rewrite IH by (intros v Hv; apply H; now right). reflexivity.
Qed.

Lemma save_then_load (urls : list string) :
  (forall u, In u urls ->
     u <> EmptyString /\ Sanitize.strip Sanitize.is_space u = u /\
     contains_char nl u = false /\ contains_char cr u = false) ->
  load_urls_from_file (Some (save_urls_content urls)) = urls.
Proof.
  intro H. unfold load_urls_from_file.
  rewrite file_lines_save by (intros u Hu; apply H in Hu; tauto).
  induction urls as [|u us IH]; [reflexivity|].
  destruct (H u (or_introl eq_refl)) as (Hne & Hs & _ & _).
  cbn [map filter]. rewrite strip_snoc, Hs by reflexivity.
  destruct (String.eqb u "") eqn:E; [apply String.eqb_eq in E; contradiction|].
  cbn [negb]. rewrite IH by (intros v Hv; apply H; now right). reflexivity.
Qed.

(** Loading what [save_urls_to_file] wrote gives back the URLs, when each
    is non-empty, has no surrounding whitespace and no line break. *)
Theorem load_save_urls (urls : list string) :
  (forall u, In u urls ->
     u <> EmptyString /\ Sanitize.strip Sanitize.is_space u = u /\
     contains_char nl u = false /\ contains_char cr u = false) ->
  load_urls_from_file (Some (save_urls_content urls)) = urls.
Proof. apply save_then_load. Qed.

Lemma load_save_urls_witness :
  load_urls_from_file (Some (save_urls_content
    ["https://www.printables.com/model/1-a"; "https://www.printables.com/model/22"]))
  = ["https://www.printables.com/model/1-a"; "https://www.printables.com/model/22"].
Proof.
  apply load_save_urls.
  intros u [<-|[<-|[]]]; repeat split; try discriminate; reflexivity.
Defined.

Lemma translate_no_cr_out : forall n s,
  String.length s <= n -> contains_char cr (translate_newlines s) = false.
Proof.
  induction n as [|n IH]; intros s Hl.
  - destruct s; [reflexivity|cbn in Hl; lia].
  - destruct s as [|c s]; [reflexivity|]. cbn [String.length] in Hl.
    cbn [translate_newlines]. destruct (Ascii.eqb c cr) eqn:Hc.
    + destruct s as [|d s'].
      * reflexivity.
      * destruct (Ascii.eqb d nl); cbn [contains_char]; rewrite IH;
          try reflexivity; cbn [String.length] in *; lia.
    + cbn [contains_char]. rewrite Ascii.eqb_sym, Hc, IH by lia. reflexivity.
Qed.

Lemma split_lines_chars (s cur l : string) (c : ascii) :
  In l (split_lines_aux s cur) -> contains_char c l = true ->
  c = nl \/ contains_char c cur = true \/ contains_char c s = true.
Proof.
  revert cur. induction s as [|d s IH]; intros cur Hin Hc.
  - cbn [split_lines_aux] in Hin. destruct (String.eqb cur ""); [destruct Hin|].
    destruct Hin as [<-|[]]; auto.
  - cbn [split_lines_aux] in Hin. destruct (Ascii.eqb d nl) eqn:Hd.
    + destruct Hin as [<-|Hin].
      * rewrite contains_char_app in Hc. apply orb_true_iff in Hc as [Hc|Hc]; [auto|].
        cbn [contains_char] in Hc. rewrite orb_false_r in Hc.
        apply Ascii.eqb_eq in Hc. auto.
      * destruct (IH _ Hin Hc) as [H|[H|H]]; [auto|discriminate|].
        right; right. cbn [contains_char]. now rewrite H, orb_true_r.
    + destruct (IH _ Hin Hc) as [H|[H|H]]; [auto| |].
      * rewrite contains_char_app in H. apply orb_true_iff in H as [H|H]; [auto|].
        right; right. cbn [contains_char] in *. rewrite orb_false_r in H. now rewrite H.
      * right; right. cbn [contains_char]. now rewrite H, orb_true_r.
Qed.

Lemma split_lines_shape (s cur l : string) :
  contains_char nl cur = false -> In l (split_lines_aux s cur) ->
  exists x, contains_char nl x = false /\
            (l = x ++ String nl EmptyString \/ l = x).
Proof.
  revert cur. induction s as [|d s IH]; intros cur Hcur Hin.
  - cbn [split_lines_aux] in Hin. destruct (String.eqb cur ""); [destruct Hin|].
    destruct Hin as [<-|[]]. eauto.
  - cbn [split_lines_aux] in Hin. destruct (Ascii.eqb d nl) eqn:Hd.
    + destruct Hin as [<-|Hin]; [eauto|]. now apply (IH "").
    + apply (IH (cur ++ String d EmptyString)); [|exact Hin].
      rewrite contains_char_app, Hcur. cbn [contains_char].
      now rewrite Ascii.eqb_sym, Hd.
Qed.

Lemma loaded_url_shape (content u : string) :
  In u (load_urls_from_file (Some content)) ->
  u <> EmptyString /\ Sanitize.strip Sanitize.is_space u = u /\
  contains_char nl u = false /\ contains_char cr u = false.
Proof.
  unfold load_urls_from_file. rewrite filter_In, in_map_iff.
  intros [(l & <- & Hl) Hne]. apply negb_true_iff in Hne.
  split; [intro E; subst; rewrite E in Hne; discriminate|].
  split; [apply strip_idem|].
  unfold file_lines in Hl.
  destruct (split_lines_shape _ "" _ eq_refl Hl) as (x & Hx & Hlx).
  assert (Hxcr : contains_char cr x = false).
  { apply Bool.not_true_iff_false. intro Hc.
    assert (Hl' : contains_char cr l = true).
    { destruct Hlx as [->| ->]; [|exact Hc].
      rewrite contains_char_app, Hc. reflexivity. }
    destruct (split_lines_chars _ _ _ _ Hl Hl') as [E|[E|E]];
      [discriminate|discriminate|].
    rewrite (translate_no_cr_out _ content (le_n _)) in E. discriminate. }
  assert (Hs : Sanitize.strip Sanitize.is_space l = Sanitize.strip Sanitize.is_space x).
  { destruct Hlx as [->| ->]; [now apply strip_snoc|reflexivity]. }
  rewrite Hs. split; now apply strip_keeps_absent.
Qed.

(** Every loaded URL is non-empty, stripped and free of line breaks. *)
Theorem load_urls_shape (content u : string) :
  In u (load_urls_from_file (Some content)) ->
  u <> EmptyString /\ Sanitize.strip Sanitize.is_space u = u /\
  contains_char nl u = false /\ contains_char cr u = false.
Proof. apply loaded_url_shape. Qed.

Lemma load_urls_shape_witness :
  let u := "https://www.printables.com/model/1" in
  u <> EmptyString /\ Sanitize.strip Sanitize.is_space u = u /\
  contains_char nl u = false /\ contains_char cr u = false.
Proof.
  apply (load_urls_shape
           ("  https://www.printables.com/model/1 " ++ String cr (String nl (String cr "b")))).
  vm_compute. left. reflexivity.
Defined.

(** Saving the URLs loaded from any file and loading them again gives the
    same list. *)
Theorem load_save_load_urls (content : string) :
  load_urls_from_file (Some (save_urls_content (load_urls_from_file (Some content))))
  = load_urls_from_file (Some content).
Proof. apply save_then_load. intros u Hu. now apply (loaded_url_shape content). Qed.

End UrlFacts.

(** ** Model links and model ids *)

Module LinkFacts.
Import Links.

Lemma mem_In (f : string) (l : list string) : Wait.mem f l = true <-> In f l.
Proof.
  unfold Wait.mem. rewrite existsb_exists. split.
  - intros (x & Hx & E). apply String.eqb_eq in E. now subst.
  - intro H. exists f. split; [exact H|apply String.eqb_refl].
Qed.

Lemma NoDup_snoc (x : string) (l : list string) :
  NoDup l -> ~ In x l -> NoDup (l ++ [x])%list.
Proof.
  induction l as [|y l IH]; intros Hl Hx; cbn [app].
  - constructor; [intros []|constructor].
  - inversion Hl as [|? ? Hy Hl']; subst. constructor.
    + rewrite in_app_iff. intros [H|[H|[]]]; [contradiction|].
      subst. apply Hx. now left.
    + apply IH; [exact Hl'|]. intro H. apply Hx. now right.
Qed.

Lemma strip_prefix_some (pre s r : string) :
  strip_prefix pre s = Some r -> s = pre ++ r.
Proof.
  revert s. induction pre as [|a pre IH]; intros s H.
  - cbn in H. now injection H.
  - destruct s as [|b s]; cbn [strip_prefix] in H; [discriminate|].
    destruct (Ascii.eqb a b) eqn:E; [|discriminate].
    apply Ascii.eqb_eq in E. subst. cbn [append]. f_equal. now apply IH.
Qed.

Lemma strip_prefix_app (pre s : string) : strip_prefix pre (pre ++ s) = Some s.
Proof.
  induction pre as [|a pre IH]; [reflexivity|].
  cbn [append strip_prefix]. now rewrite Ascii.eqb_refl.
Qed.

Lemma before_qmark_no_q (s : string) : contains_char "?" (before_qmark s) = false.
Proof.
  induction s as [|c s IH]; [reflexivity|]. cbn [before_qmark].
  destruct (Ascii.eqb c "?") eqn:E; [reflexivity|].
  cbn [contains_char]. now rewrite Ascii.eqb_sym, E, IH.
Qed.

Lemma before_qmark_app (u s : string) :
  contains_char "?" u = false -> before_qmark (u ++ s) = u ++ before_qmark s.
Proof.
  induction u as [|c u IH]; intro H; [reflexivity|].
  cbn [contains_char] in H. apply orb_false_iff in H as [Hc Hu].
  cbn [append before_qmark]. rewrite Ascii.eqb_sym, Hc. now rewrite IH.
Qed.

Lemma link_of_href_shape (h : option string) (l : string) :
  link_of_href h = Some l -> model_link l.
Proof.
  destruct h as [h|]; cbn [link_of_href]; [|discriminate].
  unfold starts_with. destruct (strip_prefix "/model/" h) as [r|] eqn:Hp;
    rewrite ?andb_false_r; [|discriminate].
  destruct (negb (String.eqb h "")); cbn [andb]; [|discriminate].
  intro E. injection E as <-. apply strip_prefix_some in Hp. subst h.
  exists (before_qmark r). split; [|apply before_qmark_no_q].
  now rewrite before_qmark_app by reflexivity.
Qed.

Lemma add_links_inv (hrefs : list (option string)) (links : list string) :
  NoDup links -> (forall l, In l links -> model_link l) ->
  NoDup (add_links hrefs links) /\
  (forall l, In l (add_links hrefs links) -> model_link l).
Proof.
  revert links. induction hrefs as [|h r IH]; intros links Hnd Hs; [auto|].
  cbn [add_links]. destruct (link_of_href h) as [l|] eqn:Hl; [|auto].
  apply IH.
  - destruct (Wait.mem l links) eqn:Hm; [exact Hnd|].
    apply NoDup_snoc; [exact Hnd|]. rewrite <- mem_In, Hm. discriminate.
  - destruct (Wait.mem l links); [exact Hs|].
    intros x Hx. apply in_app_iff in Hx as [Hx|[<-|[]]]; [auto|].
    now apply (link_of_href_shape h).
Qed.

Lemma add_links_keeps (hrefs : list (option string)) (links : list string) (l : string) :
  In l links -> In l (add_links hrefs links).
Proof.
  revert links. induction hrefs as [|h r IH]; intros links Hl; [exact Hl|].
  cbn [add_links]. destruct (link_of_href h) as [x|]; apply IH; [|exact Hl].
  destruct (Wait.mem x links); [exact Hl|]. apply in_app_iff. now left.
Qed.

Lemma add_links_collects (hrefs : list (option string)) (links : list string)
    (h : option string) (l : string) :
  In h hrefs -> link_of_href h = Some l -> In l (add_links hrefs links).
Proof.
  revert links. induction hrefs as [|h' r IH]; intros links Hin Hl; [destruct Hin|].
  destruct Hin as [<-|Hin]; cbn [add_links]; [|destruct (link_of_href h'); auto].
  rewrite Hl. apply add_links_keeps.
  destruct (Wait.mem l links) eqn:Hm; [now apply mem_In|].
  apply in_app_iff. right. now left.
Qed.

Lemma scroll_loop_inv (obs : nat -> scroll_obs) (limit fuel k h a : nat)
    (links res : list string) :
  NoDup links -> (forall l, In l links -> model_link l) ->
  scroll_loop obs limit fuel k h a links = Some res ->
  NoDup res /\ (forall l, In l res -> model_link l).
Proof.
  revert k h a links. induction fuel as [|fuel IH]; intros k h a links Hnd Hs E;
    cbn [scroll_loop] in E; [discriminate|].
  destruct (_ && (MAX_SCROLL_ATTEMPTS <=? S a)); [injection E as <-; auto|].
  destruct (add_links_inv (models_after_scroll (obs k)) links Hnd Hs) as [Hnd' Hs'].
  destruct (_ && _); [injection E as <-; auto|].
  exact (IH _ _ _ _ Hnd' Hs' E).
Qed.

(** [scrape_models] returns distinct links, each the site followed by
    ["/model/"] and a path with no query string. *)
Theorem scrape_models_links (obs : nat -> scroll_obs) (limit fuel h0 : nat)
    (links : list string) :
  scrape_models obs limit fuel h0 = Some links ->
  NoDup links /\
  (forall l, In l links ->
     exists rest, l = site ++ "/model/" ++ rest /\ contains_char "?" rest = false).
Proof.
  intro E. apply (scroll_loop_inv obs limit fuel 0 h0 0 [] links);
    [constructor|intros l []|exact E].
Qed.

Lemma scrape_models_links_witness :
  scrape_models Inputs.obs_one_page 1 5 0 = Some ["https://www.printables.com/model/12-cube"]
  /\ NoDup ["https://www.printables.com/model/12-cube"].
Proof.
  assert (E : scrape_models Inputs.obs_one_page 1 5 0
              = Some ["https://www.printables.com/model/12-cube"]) by reflexivity.
  split; [exact E|]. exact (proj1 (scrape_models_links _ _ _ _ _ E)).
Defined.

(** A link collected once is never dropped. *)
Lemma scroll_loop_monotone (obs : nat -> scroll_obs) (limit fuel k h a : nat)
    (links res : list string) (l : string) :
  scroll_loop obs limit fuel k h a links = Some res -> In l links -> In l res.
Proof.
  revert k h a links. induction fuel as [|fuel IH]; intros k h a links E Hl;
    cbn [scroll_loop] in E; [discriminate|].
  destruct (_ && (MAX_SCROLL_ATTEMPTS <=? S a)); [now injection E as <-|].
  destruct (_ && _); [injection E as <-; now apply add_links_keeps|].
  exact (IH _ _ _ _ E (add_links_keeps _ _ _ Hl)).
Qed.

(** When the first scroll changes the height or adds cards, the link of
    every [/model/] card it shows is in the result of [scrape_models]. *)
Theorem scrape_models_first_pass (obs : nat -> scroll_obs) (limit fuel h0 : nat)
    (links : list string) (h : option string) (l : string) :
  scrape_models obs limit fuel h0 = Some links ->
  (new_height (obs 0) <> h0 \/
   initial_model_count (obs 0) < List.length (models_after_scroll (obs 0))) ->
  In h (models_after_scroll (obs 0)) -> link_of_href h = Some l ->
  In l links.
Proof.
  unfold scrape_models. intros E Hfresh Hin Hl.
  destruct fuel as [|fuel]; cbn [scroll_loop] in E; [discriminate|].
  assert (Hst : ((new_height (obs 0) =? h0)
                 && (List.length (models_after_scroll (obs 0)) <=? initial_model_count (obs 0)))
                = false).
  { apply andb_false_iff. destruct Hfresh as [H|H]; [left|right].
    - now apply Nat.eqb_neq.
    - apply Nat.leb_gt. exact H. }
  rewrite Hst in E. cbn [andb] in E.
  pose proof (add_links_collects _ [] h l Hin Hl) as Hc.
  destruct (_ && _); [now injection E as <-|].
  exact (scroll_loop_monotone _ _ _ _ _ _ _ _ _ E Hc).
Qed.

Lemma scrape_models_first_pass_witness :
  In "https://www.printables.com/model/12-cube"
     ["https://www.printables.com/model/12-cube"].
Proof.
  apply (scrape_models_first_pass Inputs.obs_one_page 1 5 0 _ (Some "/model/12-cube")).
  - reflexivity.
  - left. discriminate.
  - cbn. auto.
  - reflexivity.
Defined.

(** Digits and ids. *)








Lemma search_model_id_site (x : string) :
  search_model_id (site ++ x) = search_model_id x.
Proof. reflexivity. Qed.

Lemma digit_run_app (d r : string) :
  (forall c, contains_char c d = true -> is_digit c = true) ->
  digit_run (d ++ r) = d ++ digit_run r.
Proof.
  induction d as [|a d IH]; intro H; [reflexivity|].
  cbn [append digit_run].
  rewrite (H a) by (cbn [contains_char]; now rewrite Ascii.eqb_refl).
  rewrite IH; [reflexivity|]. intros c Hc. apply H. cbn [contains_char].
  now rewrite Hc, orb_true_r.
Qed.

Lemma search_model_id_hit (s r : string) (a : ascii) (b : string) :
  strip_prefix "/model/" s = Some r -> digit_run r = String a b ->
  search_model_id s = Some (String a b).
Proof.
  destruct s as [|x s]; [discriminate|]. intros H1 H2.
  cbn [search_model_id]. rewrite H1, H2. reflexivity.
Qed.

Lemma digit_run_before_qmark (rest : string) :
  digit_run rest = "" -> digit_run (before_qmark rest) = "".
Proof.
  destruct rest as [|c r]; [reflexivity|]. cbn [digit_run before_qmark].
  destruct (is_digit c) eqn:Hd; [discriminate|]. intros _.
  destruct (Ascii.eqb c "?"); [reflexivity|]. cbn [digit_run]. now rewrite Hd.
Qed.

(** For a card whose [href] is ["/model/"], a number and then a non-digit
    (or nothing), [main] uses that number as the model id of the link
    [scrape_models] collected from it. *)
Theorem model_id_of_card_link (d rest : string) (i : nat) :
  d <> "" -> (forall c, contains_char c d = true -> is_digit c = true) ->
  digit_run rest = "" ->
  exists l, link_of_href (Some ("/model/" ++ d ++ rest)) = Some l /\
            model_id l i = d.
Proof.
  intros Hne Hd Hr.
  assert (Hq : contains_char "?" d = false).
  { destruct (contains_char "?" d) eqn:E; [|reflexivity]. apply Hd in E. discriminate. }
  exists (site ++ "/model/" ++ d ++ before_qmark rest). split.
  - unfold link_of_href, starts_with. rewrite strip_prefix_app.
    rewrite !before_qmark_app by (reflexivity || exact Hq). reflexivity.
  - unfold model_id. rewrite search_model_id_site.
    destruct d as [|a b]; [contradiction|].
    rewrite (search_model_id_hit _ (String a b ++ before_qmark rest) a b);
      [reflexivity|apply strip_prefix_app|].
    rewrite digit_run_app by exact Hd. rewrite digit_run_before_qmark by exact Hr.
    apply str_app_nil_r.
Qed.

Lemma model_id_of_card_link_witness :
  exists l, link_of_href (Some ("/model/" ++ "123" ++ "-benchy?lang=en")) = Some l /\
            model_id l 7 = "123".
Proof.
  apply model_id_of_card_link.
  - discriminate.
  - intros c Hc. cbn [contains_char] in Hc.
    repeat (apply orb_true_iff in Hc as [Hc|Hc]; [apply Ascii.eqb_eq in Hc; subst; reflexivity|]).
    discriminate.
  - reflexivity.
Defined.

End LinkFacts.

(** ** Tags *)

Module TagFacts.
Import Details.
Import LinkFacts.

Lemma add_breadcrumbs_filtered (texts tags : list string) :
  add_breadcrumbs texts tags = add_filtered not_3d texts tags.
Proof.
  revert tags. induction texts as [|x r IH]; intro tags; [reflexivity|].
  cbn [add_breadcrumbs add_filtered]. unfold not_3d. now rewrite !IH.
Qed.

Lemma add_attributes_filtered (texts tags : list string) :
  add_attributes texts tags = add_filtered (fun _ => true) texts tags.
Proof.
  revert tags. induction texts as [|x r IH]; intro tags; [reflexivity|].
  cbn [add_attributes add_filtered]. rewrite andb_true_r. now rewrite !IH.
Qed.

Lemma add_filtered_spec (q : string -> bool) (texts tags : list string) :
  NoDup tags ->
  NoDup (add_filtered q texts tags) /\
  (exists r, add_filtered q texts tags = (tags ++ r)%list /\
     forall t, In t r -> t <> "" /\ q t = true /\
                         exists x, In x texts /\ Sanitize.strip Sanitize.is_space x = t) /\
  (forall x, In x texts -> Sanitize.strip Sanitize.is_space x <> "" ->
     q (Sanitize.strip Sanitize.is_space x) = true ->
     In (Sanitize.strip Sanitize.is_space x) (add_filtered q texts tags)).
Proof.
  revert tags. induction texts as [|x xs IH]; intros tags Hnd.
  - split; [exact Hnd|]. split; [exists []; split; [now rewrite app_nil_r|intros t []]|].
    intros x [].
  - cbn [add_filtered].
    set (t := Sanitize.strip Sanitize.is_space x).
    destruct (negb (String.eqb t "") && q t && negb (Wait.mem t tags)) eqn:Hc.
    + apply andb_true_iff in Hc as [Hc Hm]. apply andb_true_iff in Hc as [He Hq].
      apply negb_true_iff in He, Hm.
      assert (Hnd' : NoDup (tags ++ [t])%list).
      { apply NoDup_snoc; [exact Hnd|]. rewrite <- mem_In, Hm. discriminate. }
      destruct (IH _ Hnd') as (Hnd2 & (r & Hr & Hrs) & Hcomp).
      split; [exact Hnd2|]. split.
      * exists (t :: r). split; [rewrite Hr, <- app_assoc; reflexivity|].
        intros u [<-|Hu].
        -- split; [intro E; rewrite E in He; discriminate|]. split; [exact Hq|].
           exists x. split; [now left|reflexivity].
        -- destruct (Hrs u Hu) as (? & ? & y & ? & ?). repeat split; auto.
           exists y. split; [now right|assumption].
      * intros y [<-|Hy] Hne Hqy; [|now apply Hcomp].
        rewrite Hr. apply in_app_iff. left. apply in_app_iff. right. now left.
    + destruct (IH _ Hnd) as (Hnd2 & (r & Hr & Hrs) & Hcomp).
      split; [exact Hnd2|]. split.
      * exists r. split; [exact Hr|]. intros u Hu.
        destruct (Hrs u Hu) as (? & ? & y & ? & ?). repeat split; auto.
        exists y. split; [now right|assumption].
      * intros y [<-|Hy] Hne Hqy; [|now apply Hcomp].
        fold t in Hne, Hqy |- *.
        assert (Hm : Wait.mem t tags = true).
        { apply negb_false_iff. rewrite <- Hc. apply String.eqb_neq in Hne.
          rewrite Hne, Hqy. reflexivity. }
        rewrite Hr. apply in_app_iff. left. now apply mem_In.
Qed.

Lemma not_3d_spec (t : string) : not_3d t = true <-> t <> "3D Models".
Proof.
  unfold not_3d, Wait.mem. cbn [existsb]. rewrite orb_false_r.
  rewrite negb_true_iff. split.
  - intros H E. subst. discriminate.
  - intro H. now apply String.eqb_neq.
Qed.

(** [scrape_model_details]' tags: no duplicates; a tag is exactly a
    non-empty stripped breadcrumb other than ["3D Models"] or a non-empty
    stripped attribute; and the breadcrumb tags come first, so the
    folder [main] files the model under is a breadcrumb whenever one
    qualifies. *)
Theorem collect_tags_spec (b a : list string) :
  NoDup (collect_tags b a) /\
  (forall t, In t (collect_tags b a) <->
     t <> "" /\ ((exists x, In x b /\ Sanitize.strip Sanitize.is_space x = t /\ t <> "3D Models") \/
                 (exists x, In x a /\ Sanitize.strip Sanitize.is_space x = t))) /\
  exists r1 r2, collect_tags b a = (r1 ++ r2)%list /\
    forall t, In t r1 <-> t <> "" /\ exists x, In x b /\ Sanitize.strip Sanitize.is_space x = t /\ t <> "3D Models".
Proof.
  unfold collect_tags.
  rewrite add_attributes_filtered, add_breadcrumbs_filtered.
  destruct (add_filtered_spec not_3d b [] (NoDup_nil _))
    as (Hnd1 & (r1 & Hr1 & Hs1) & Hc1).
  destruct (add_filtered_spec (fun _ => true) a _ Hnd1)
    as (Hnd2 & (r2 & Hr2 & Hs2) & Hc2).
  cbn [app] in Hr1.
  assert (H1 : forall t, In t r1 <->
            t <> "" /\ exists x, In x b /\ Sanitize.strip Sanitize.is_space x = t /\ t <> "3D Models").
  { intro t. split.
    - intro Ht. destruct (Hs1 t Ht) as (He & Hq & x & Hx & Hxt).
      split; [exact He|]. exists x. repeat split; [exact Hx|exact Hxt|].
      now apply not_3d_spec.
    - intros (He & x & Hx & Hxt & H3). rewrite <- Hr1, <- Hxt.
      apply Hc1; [exact Hx|now rewrite Hxt|]. apply not_3d_spec. now rewrite Hxt. }
  rewrite Hr1 in Hr2, Hc2, Hnd2 |- *.
  split; [exact Hnd2|]. split.
  - intro t. rewrite Hr2, in_app_iff, H1. split.
    + intros [H|H]; [tauto|]. destruct (Hs2 t H) as (He & _ & x & Hx & Hxt).
      split; [exact He|]. right. now exists x.
    + intros (He & [H|(x & Hx & Hxt)]); [now left; split|].
      assert (Hin : In t (r1 ++ r2)%list)
        by (rewrite <- Hr2; subst t; apply Hc2; [exact Hx|exact He|reflexivity]).
      apply in_app_iff in Hin as [Hin|Hin]; [left; now apply H1|now right].
  - exists r1, r2. split; [exact Hr2|exact H1].
Qed.

End TagFacts.

(** ** From the verified download to the relocated record *)

Module DownloadFacts.
Import Wait Details.

(** When the download directory only lists plain names, the path
    [scrape_model_details] records for the "Download All" ZIP, whether its
    move to the files folder succeeded or not, becomes after Step 4 of
    [main] the final files folder joined with the name of a file that the
    directory listed and [initial_files] did not. *)
Theorem download_then_relocate (w : world) (dir : string) (init : list string)
    (timeout : nat) (p : string) (te : nat) :
  (forall t f, In f (current_files (w t)) -> contains_char sep f = false) ->
  wait_for_download_completion w dir init timeout = Done (Some p) te ->
  exists t0 f,
    In f (current_files (w t0)) /\ mem f init = false /\
    forall files_dir move_ok paths final,
      last (Relocate.rewrite_paths final (record_download files_dir move_ok p paths)) ""
      = join final f.
Proof.
  intros Hns H. unfold wait_for_download_completion in H.
  apply WaitFacts.wait_loop_some in H as (t0 & f & _ & _ & Hp & Hin & _).
  apply new_completed_files_spec in Hin as (Hin & Hm & _).
  exists t0, f. split; [exact Hin|]. split; [exact Hm|].
  intros files_dir move_ok paths final.
  assert (Hb : basename p = f) by (subst p; apply basename_join; eapply Hns; exact Hin).
  unfold record_download, Relocate.rewrite_paths.
  destruct move_ok; rewrite map_app; cbn [map]; rewrite last_last.
  - now rewrite basename_join_basename, Hb.
  - now rewrite Hb.
Qed.

Lemma download_then_relocate_witness :
  exists t0 f,
    In f (current_files (Inputs.world_growing t0)) /\ mem f [] = false /\
    forall files_dir move_ok paths final,
      last (Relocate.rewrite_paths final
              (record_download files_dir move_ok "/tmp/dl/a" paths)) ""
      = join final f.
Proof.
  apply (download_then_relocate Inputs.world_growing "/tmp/dl" [] 180 "/tmp/dl/a" 7).
  - intros t f Hin. cbn in Hin. destruct Hin as [<-|[]]. reflexivity.
  - vm_compute. reflexivity.
Defined.

End DownloadFacts.

(** ** Cleaning the temporary download directory *)

Module CleanFacts.
Import Clean.

Lemma filter_filter_comp {A : Type} (f g : A -> bool) (l : list A) :
  filter f (filter g l) = filter (fun x => g x && f x) l.
Proof.
  induction l as [|x l IH]; [reflexivity|]. cbn [filter].
  destruct (g x); cbn [andb filter]; [destruct (f x)|]; now rewrite IH.
Qed.

Lemma clean_items_filter (fails : string -> bool) (items left : list (string * entry_kind)) :
  clean_items fails items left
  = filter (fun e => negb (removed fails items (fst e))) left.
Proof.
  revert left. induction items as [|[n k] r IH]; intro left.
  - cbn [clean_items]. induction left as [|e l IHl]; [reflexivity|]. cbn [filter].
    change (removed fails [] (fst e)) with false. cbn [negb]. now rewrite <- IHl.
  - cbn [clean_items]. rewrite IH.
    set (rm := match k with KFile | KLink | KDir => negb (fails n) | KOther => false end).
    assert (Hrm : rm = removable fails (n, k)) by reflexivity.
    destruct rm eqn:E.
    + rewrite filter_filter_comp. apply filter_ext. intro e.
      unfold removed. cbn [existsb fst]. rewrite <- Hrm.
      rewrite (String.eqb_sym n (fst e)).
      destruct (String.eqb (fst e) n); reflexivity.
    + apply filter_ext. intro e. unfold removed. cbn [existsb fst].
      rewrite <- Hrm, andb_false_r. reflexivity.
Qed.

Lemma NoDup_fst_inj (es : list (string * entry_kind)) (a b : string * entry_kind) :
  NoDup (map fst es) -> In a es -> In b es -> fst a = fst b -> a = b.
Proof.
  induction es as [|e es IH]; intros Hnd Ha Hb Hab; [destruct Ha|].
  cbn [map] in Hnd. inversion Hnd as [|? ? Hn Hnd']; subst.
  destruct Ha as [<-|Ha], Hb as [<-|Hb]; auto.
  - exfalso. apply Hn. rewrite Hab. now apply in_map.
  - exfalso. apply Hn. rewrite <- Hab. now apply in_map.
Qed.

(** [clean_directory] on an existing directory (whose listing has distinct
    names) leaves exactly the entries that are neither a file, a link nor
    a directory, and those whose removal raised; on a missing one it
    leaves it created and empty. *)
Theorem clean_directory_leaves (fails : string -> bool)
    (es : list (string * entry_kind)) :
  NoDup (map fst es) ->
  clean_directory fails (Some es)
  = filter (fun e => match snd e with KOther => true | _ => fails (fst e) end) es /\
  clean_directory fails None = [].
Proof.
  intro Hnd. split; [|reflexivity].
  cbn [clean_directory]. rewrite clean_items_filter. apply filter_ext_in.
  intros e He. unfold removed.
  assert (Hx : existsb (fun it => String.eqb (fst it) (fst e) && removable fails it) es
               = removable fails e).
  { destruct (removable fails e) eqn:Hr.
    - apply existsb_exists. exists e. split; [exact He|].
      now rewrite String.eqb_refl, Hr.
    - apply Bool.not_true_iff_false. intro H. apply existsb_exists in H as (it & Hit & H).
      apply andb_true_iff in H as [Hn Hrit]. apply String.eqb_eq in Hn.
      rewrite (NoDup_fst_inj es it e Hnd Hit He Hn), Hr in Hrit. discriminate. }
  rewrite Hx. unfold removable. destruct (snd e); cbn; now rewrite ?negb_involutive.
Qed.

Lemma clean_directory_leaves_witness :
  clean_directory Inputs.fails_on_d (Some [("a", KFile); ("l", KLink); ("d", KDir); ("p", KOther)])
  = [("d", KDir); ("p", KOther)] /\ clean_directory Inputs.fails_on_d None = [].
Proof.
  apply (clean_directory_leaves Inputs.fails_on_d
           [("a", KFile); ("l", KLink); ("d", KDir); ("p", KOther)]).
  repeat constructor; cbn; intuition discriminate.
Defined.

End CleanFacts.

(** ** More on the polling loop *)

Module WaitMore.
Import Wait.

Lemma stability_ok_bound (w : world) (f : string) : forall k t stable last te,
  stability w f k t stable last = StabOk te -> t <= te < t + k.
Proof.
  induction k as [|k IH]; intros t stable last te H; cbn [stability] in H;
    [discriminate|].
  destruct (size (w t) f) as [sz|].
  - destruct ((0 <? Z.of_N sz)%Z && (Z.of_N sz =? last)%Z).
    + destruct (5 <=? S stable); [injection H as <-; lia|].
      apply IH in H. lia.
    + destruct (0 <=? Z.of_N sz)%Z; apply IH in H; lia.
  - apply IH in H. lia.
Qed.

Lemma wait_loop_time (w : world) (dir : string) (init : list string) (timeout : nat) :
  forall fuel t r te, t < timeout + 2 ->
  wait_loop w dir init timeout fuel t = Done r te -> te <= timeout + 24.
Proof.
  induction fuel as [|fuel IH]; intros t r te Ht H; cbn [wait_loop] in H;
    [discriminate|].
  destruct (t <? timeout) eqn:Hlt; [apply Nat.ltb_lt in Hlt|injection H as _ <-; lia].
  destruct (new_completed_files init (current_files (w t))) as [|g gs].
  - apply IH in H; [exact H|lia].
  - destruct (top_candidate (candidates (w t) (g :: gs))) as [[f m]|].
    + destruct (stability w f 25 t 0 (-1)) as [t'|t'] eqn:Hs; injection H as _ <-.
      * apply stability_ok_bound in Hs. lia.
      * apply WaitFacts.stability_exhausted in Hs. lia.
    + apply IH in H; [exact H|lia].
Qed.

(** [wait_for_download_completion] returns at most 24 seconds after
    [timeout]: a stability check that starts just before the deadline
    runs to its end. *)
Theorem wait_for_download_completion_time (w : world) (dir : string)
    (init : list string) (timeout : nat) (r : option string) (te : nat) :
  wait_for_download_completion w dir init timeout = Done r te -> te <= timeout + 24.
Proof. apply wait_loop_time. lia. Qed.

Lemma wait_for_download_completion_time_witness :
  wait_for_download_completion Inputs.world_unstable "/tmp/dl" [] 1 = Done None 25 /\
  25 <= 1 + 24.
Proof.
  assert (E : wait_for_download_completion Inputs.world_unstable "/tmp/dl" [] 1
              = Done None 25) by (vm_compute; reflexivity).
  split; [exact E|].
  exact (wait_for_download_completion_time Inputs.world_unstable "/tmp/dl" [] 1 None 25 E).
Defined.






End WaitMore.

(** ** Step 4 moves lose no file *)

Module MoveFacts.
Import Relocate.
Import LinkFacts.

Lemma move_items_spec (os_error : string -> bool) (items : list string) :
  forall src dst src' dst',
  move_items os_error items src dst = Some (src', dst') ->
  incl dst dst' /\ incl items dst' /\
  (forall x, In x src' -> In x src /\ (~ In x items \/ In x dst)).
Proof.
  induction items as [|i r IH]; intros src dst src' dst' H; cbn [move_items] in H.
  - injection H as <- <-. split; [apply incl_refl|]. split; [intros x []|].
    intros x Hx. split; [exact Hx|]. left. intros [].
  - destruct (Wait.mem i dst) eqn:Hm.
    + destruct (IH _ _ _ _ H) as (Hd & Hi & Hs). apply mem_In in Hm.
      split; [exact Hd|]. split; [intros x [<-|Hx]; auto|].
      intros x Hx. destruct (Hs x Hx) as [Hsrc [Hn|Hn]]; split; auto.
      destruct (String.eqb_spec x i) as [->|Hne]; [now right|].
      left. intros [E|E]; [congruence|contradiction].
    + destruct (os_error i); [discriminate|].
      destruct (IH _ _ _ _ H) as (Hd & Hi & Hs).
      split; [intros x Hx; apply Hd, in_app_iff; now left|].
      split; [intros x [<-|Hx]; [apply Hd, in_app_iff; right; now left|auto]|].
      intros x Hx. destruct (Hs x Hx) as [Hsrc Hn].
      unfold remove_entry in Hsrc. apply filter_In in Hsrc as [Hsrc Hne].
      apply negb_true_iff, String.eqb_neq in Hne.
      split; [exact Hsrc|]. destruct Hn as [Hn|Hn].
      * left. intros [E|E]; [congruence|contradiction].
      * apply in_app_iff in Hn as [Hn|[E|[]]]; [now right|congruence].
Qed.

Lemma move_dir_spec (os_error : string -> bool) (src : option (list string))
    (dst : list string) (src' : option (list string)) (dst' : list string) :
  move_dir os_error src dst = Some (src', dst') ->
  incl dst dst' /\
  forall es, src = Some es ->
    incl es dst' /\ exists es', src' = Some es' /\
      forall x, In x es' -> In x es /\ In x dst.
Proof.
  destruct src as [es|]; cbn [move_dir].
  - destruct (move_items os_error es es dst) as [[s d]|] eqn:H; [|discriminate].
    intro E. injection E as <- <-. apply move_items_spec in H as (Hd & Hi & Hs).
    split; [exact Hd|]. intros es' E. injection E as <-. split; [exact Hi|].
    exists s. split; [reflexivity|]. intros x Hx.
    destruct (Hs x Hx) as [Hx' [Hn|Hn]]; [contradiction|auto].
  - intro E. injection E as <- <-. split; [apply incl_refl|discriminate].
Qed.

(** When Step 4 completes, each final folder keeps what it held and gains
    every name of its temporary folder; what stays in a temporary folder
    is only what the final folder already held under the same name. *)
Theorem step4_moves_lose_nothing (ie fe : string -> bool) (di df : string)
    (d d' : step4_dirs) (r r' : details) :
  move_and_rewrite ie fe di df d r = Some (d', r') ->
  incl (final_image_dir d) (final_image_dir d') /\
  incl (final_files_dir d) (final_files_dir d') /\
  (forall es, temp_image_subdir d = Some es ->
     incl es (final_image_dir d') /\
     exists es', temp_image_subdir d' = Some es' /\
       forall x, In x es' -> In x es /\ In x (final_image_dir d)) /\
  (forall es, temp_files_subdir d = Some es ->
     incl es (final_files_dir d') /\
     exists es', temp_files_subdir d' = Some es' /\
       forall x, In x es' -> In x es /\ In x (final_files_dir d)).
Proof.
  unfold move_and_rewrite.
  destruct (move_dir ie (temp_image_subdir d) (final_image_dir d)) as [[ti fi]|] eqn:Hi;
    [|discriminate].
  destruct (move_dir fe (temp_files_subdir d) (final_files_dir d)) as [[tf ff]|] eqn:Hf;
    [|discriminate].
  intro E. injection E as <- _. cbn [temp_image_subdir final_image_dir
    temp_files_subdir final_files_dir].
  apply move_dir_spec in Hi as [Hi1 Hi2]. apply move_dir_spec in Hf as [Hf1 Hf2].
  auto.
Qed.

Lemma step4_moves_lose_nothing_witness :
  exists d', move_and_rewrite Inputs.no_os_error Inputs.no_os_error
    "/out/Tag/1_Model/images" "/out/Tag/1_Model/files" Inputs.dirs_ab
    Inputs.sample_details
    = Some (d', rewrite_record "/out/Tag/1_Model/images" "/out/Tag/1_Model/files"
                  Inputs.sample_details) /\
  incl ["a"; "b"] (final_files_dir d').
Proof.
  eexists. split; [reflexivity|].
  refine (proj1 ((proj2 (proj2 (proj2 (step4_moves_lose_nothing
    Inputs.no_os_error Inputs.no_os_error "/out/Tag/1_Model/images"
    "/out/Tag/1_Model/files" Inputs.dirs_ab _ Inputs.sample_details _ _)))) _ eq_refl)).
  reflexivity.
Defined.

End MoveFacts.

(** ** The scroll loop when the page stops growing *)

Module ScrollFacts.
Import Links.

Lemma scroll_loop_stale (obs : nat -> scroll_obs) (h0 : nat) :
  (forall k, k < 20 -> new_height (obs k) = h0 /\
     List.length (models_after_scroll (obs k)) <= initial_model_count (obs k)) ->
  forall n j fuel links, j + n = 19 -> 20 - j <= fuel ->
  scroll_loop obs 0 fuel j h0 j links
  = Some (fold_left (fun acc k => add_links (models_after_scroll (obs k)) acc)
            (seq j n) links).
Proof.
  intros Hst. induction n as [|n IH]; intros j fuel links Hj Hf;
    (destruct fuel as [|fuel]; [lia|]); cbn [scroll_loop];
    destruct (Hst j ltac:(lia)) as [Hh Hc];
    rewrite Hh, Nat.eqb_refl; apply Nat.leb_le in Hc; rewrite Hc; cbn [andb].
  - replace (MAX_SCROLL_ATTEMPTS <=? S j) with true
      by (symmetry; apply Nat.leb_le; unfold MAX_SCROLL_ATTEMPTS; lia).
    reflexivity.
  - replace (MAX_SCROLL_ATTEMPTS <=? S j) with false
      by (symmetry; apply Nat.leb_gt; unfold MAX_SCROLL_ATTEMPTS; lia).
    cbn [Nat.ltb Nat.leb andb seq fold_left].
    apply IH; lia.
Qed.

(** With no limit, when none of the first 20 scrolls changes the height
    or adds cards, [scrape_models] stops at the 20th scroll and returns
    the links of the first 19: the cards of the 20th are not collected. *)
Theorem scrape_models_stale (obs : nat -> scroll_obs) (fuel h0 : nat) :
  (forall k, k < 20 -> new_height (obs k) = h0 /\
     List.length (models_after_scroll (obs k)) <= initial_model_count (obs k)) ->
  20 <= fuel ->
  scrape_models obs 0 fuel h0
  = Some (fold_left (fun acc k => add_links (models_after_scroll (obs k)) acc)
            (seq 0 19) []).
Proof. intros Hst Hf. apply (scroll_loop_stale obs h0 Hst); lia. Qed.

Lemma scrape_models_stale_witness :
  scrape_models Inputs.obs_static 0 20 500 = Some ["https://www.printables.com/model/1"].
Proof.
  rewrite (scrape_models_stale Inputs.obs_static 20 500).
  - reflexivity.
  - intros k Hk. split; reflexivity.
  - lia.
Defined.

End ScrollFacts.

(** ** From collection to processing through the URL file *)

Module CollectFacts.
Import Links.
Import LinkFacts.

Lemma lstrip_no_p (p : ascii -> bool) (s : string) :
  (forall c, contains_char c s = true -> p c = false) -> Sanitize.lstrip p s = s.
Proof.
  destruct s as [|c s]; intro H; [reflexivity|]. cbn [Sanitize.lstrip].
  rewrite (H c) by (cbn [contains_char]; now rewrite Ascii.eqb_refl). reflexivity.
Qed.

Lemma strip_no_p (p : ascii -> bool) (s : string) :
  (forall c, contains_char c s = true -> p c = false) -> Sanitize.strip p s = s.
Proof.
  intro H. unfold Sanitize.strip, Sanitize.rstrip. rewrite (lstrip_no_p p s H).
  rewrite lstrip_no_p; [apply rev_str_involutive|].
  intros c Hc. apply H. now rewrite <- rev_str_contains.
Qed.

Lemma before_qmark_chars (s : string) (c : ascii) :
  contains_char c (before_qmark s) = true -> contains_char c s = true.
Proof.
  induction s as [|d s IH]; cbn [before_qmark]; [discriminate|].
  destruct (Ascii.eqb d "?"); [discriminate|]. cbn [contains_char].
  intro H. apply orb_true_iff in H as [H|H]; [now rewrite H|].
  rewrite IH by exact H. apply orb_true_r.
Qed.

Lemma link_of_href_no_space (h l : string) :
  no_space h -> link_of_href (Some h) = Some l -> no_space l /\ l <> "".
Proof.
  intros Hh E. unfold link_of_href in E.
  destruct (_ && _); [|discriminate].
  assert (El : l = site ++ before_qmark h) by congruence. subst l.
  split; [|destruct (before_qmark h); discriminate].
  intros c Hc. rewrite contains_char_app in Hc. apply orb_true_iff in Hc as [Hc|Hc].
  - unfold site in Hc. cbn [contains_char] in Hc.
    repeat (apply orb_true_iff in Hc as [Hc|Hc];
            [apply Ascii.eqb_eq in Hc; subst; reflexivity|]).
    discriminate.
  - apply Hh. now apply before_qmark_chars.
Qed.

Lemma add_links_preserves (P : string -> Prop) (hrefs : list (option string))
    (links : list string) :
  (forall h l, In h hrefs -> link_of_href h = Some l -> P l) ->
  (forall l, In l links -> P l) -> forall l, In l (add_links hrefs links) -> P l.
Proof.
  revert links. induction hrefs as [|h r IH]; intros links Hh Hl; [exact Hl|].
  cbn [add_links]. destruct (link_of_href h) as [x|] eqn:Hx.
  - apply IH; [intros h' l' Hi; apply Hh; now right|].
    destruct (Wait.mem x links); [exact Hl|].
    intros l Hin. apply in_app_iff in Hin as [Hin|[<-|[]]]; [auto|].
    apply (Hh h); [now left|exact Hx].
  - apply IH; [intros h' l' Hi; apply Hh; now right|exact Hl].
Qed.

Lemma scroll_loop_preserves (P : string -> Prop) (obs : nat -> scroll_obs)
    (limit : nat) :
  (forall k h l, In h (models_after_scroll (obs k)) -> link_of_href h = Some l -> P l) ->
  forall fuel k last a links res,
  (forall l, In l links -> P l) ->
  scroll_loop obs limit fuel k last a links = Some res -> forall l, In l res -> P l.
Proof.
  intros Hobs. induction fuel as [|fuel IH]; intros k last a links res Hl E;
    cbn [scroll_loop] in E; [discriminate|].
  destruct (_ && (MAX_SCROLL_ATTEMPTS <=? S a)); [injection E as <-; exact Hl|].
  pose proof (add_links_preserves P (models_after_scroll (obs k)) links
                (Hobs k) Hl) as Hl'.
  destruct (_ && _); [injection E as <-; exact Hl'|].
  exact (IH _ _ _ _ _ Hl' E).
Qed.

(** In [--mode collect] followed by [--mode process]: when no card's
    [href] holds whitespace, the URLs [load_urls_from_file] reads back are
    exactly the links [scrape_models] collected and [save_urls_to_file]
    wrote, in the same order. *)
Theorem collect_then_process (obs : nat -> scroll_obs) (limit fuel h0 : nat)
    (links : list string) :
  (forall k h, In (Some h) (models_after_scroll (obs k)) ->
     forall c, contains_char c h = true -> Sanitize.is_space c = false) ->
  scrape_models obs limit fuel h0 = Some links ->
  Urls.load_urls_from_file (Some (Urls.save_urls_content links)) = links.
Proof.
  intros Hh E. apply UrlFacts.save_then_load. intros u Hu.
  assert (Hg : no_space u /\ u <> "").
  { apply (scroll_loop_preserves (fun l => no_space l /\ l <> "") obs limit)
      with (fuel := fuel) (k := 0) (last := h0) (a := 0) (links := []) (res := links);
      [| intros l [] | exact E | exact Hu].
    intros k [h|] l Hin Hl; [|discriminate].
    apply (link_of_href_no_space h); [|exact Hl]. exact (Hh k h Hin). }
  destruct Hg as [Hns Hne].
  split; [exact Hne|]. split; [now apply strip_no_p|].
  split; destruct (contains_char _ u) eqn:Hc; try reflexivity; apply Hns in Hc;
    discriminate.
Qed.

Lemma collect_then_process_witness :
  Urls.load_urls_from_file
    (Some (Urls.save_urls_content ["https://www.printables.com/model/12-cube"]))
  = ["https://www.printables.com/model/12-cube"].
Proof.
  apply (collect_then_process Inputs.obs_one_page 1 5 0).
  - intros k h Hin c Hc. cbn in Hin.
    destruct Hin as [E|[E|[E|[E|[]]]]]; try discriminate; injection E as <-;
      cbn [contains_char] in Hc;
      repeat (apply orb_true_iff in Hc as [Hc|Hc];
              [apply Ascii.eqb_eq in Hc; subst; reflexivity|]);
      discriminate.
  - reflexivity.
Defined.

End CollectFacts.
